(** * Lumi: conversation window and dispatch policy of [cogs/ai.py]

    A shallow embedding of [LumiCog]: the per-user conversation history
    (a Python dict from user-id strings to lists of turns), the
    allow-list and usage tables of the SQLite store, the completion
    client [call_groq_api], the listener [on_message] with
    [process_message], and the bodies of the admin commands.

    Conventions.
    - Text is [string]; a character stands for a code point below 256.
    - Discord ids are [N]; [str(id)] is stdpp's decimal [pretty].
    - What the environment decides (the HTTP exchange, whether
      [message.reply] or a store statement raises, the clock) is an
      explicit input of the function that consumes it.
    - [print] calls and the typing indicator leave no trace in the model. *)

From stdpp Require Import base tactics option list strings pretty gmap fin_maps.

(** ** Python helpers *)

Module Py.

(** [l[-n:]] for [n >= 0]. [-0] is [0], so [l[-0:]] is the whole list. *)
Definition slice_last {A} (n : nat) (l : list A) : list A :=
  match n with
  | O => l
  | S _ => drop (length l - n) l
  end.

(** [s.startswith(p)] *)
Fixpoint startswith (p s : string) : bool :=
  match p, s with
  | EmptyString, _ => true
  | String a p', String b s' => if decide (a = b) then startswith p' s' else false
  | String _ _, EmptyString => false
  end.

(** The scan of [str.replace] for a non-empty [old]: left to right,
    non-overlapping. [skip] counts the characters of a match still to
    be passed over. *)
Fixpoint replace_scan (old new : string) (skip : nat) (s : string) : string :=
  match s with
  | EmptyString => EmptyString
  | String c s' =>
      match skip with
      | S k => replace_scan old new k s'
      | O =>
          if startswith old s
          then new +:+ replace_scan old new (String.length old - 1) s'
          else String c (replace_scan old new 0 s')
      end
  end.

(** The empty pattern matches before every character and at the end. *)
Fixpoint intersperse_all (new s : string) : string :=
  match s with
  | EmptyString => new
  | String c s' => new +:+ String c (intersperse_all new s')
  end.

(** [s.replace(old, new)] *)
Definition replace (old new s : string) : string :=
  match old with
  | EmptyString => intersperse_all new s
  | String _ _ => replace_scan old new 0 s
  end.

(** [c.isspace()] on code points below 256. *)
Definition isspace (c : Ascii.ascii) : bool :=
  let n := Ascii.N_of_ascii c in
  ((9 <=? n) && (n <=? 13) || (28 <=? n) && (n <=? 32)
   || (n =? 133) || (n =? 160))%N.

Fixpoint lstrip (s : string) : string :=
  match s with
  | EmptyString => EmptyString
  | String c s' => if isspace c then lstrip s' else s
  end.

Definition rstrip (s : string) : string :=
  String.rev (lstrip (String.rev s)).

(** [s.strip()] *)
Definition strip (s : string) : string := rstrip (lstrip s).

End Py.

(** ** Data *)

Inductive Role := user | assistant | system.

Global Instance Role_eq_dec : EqDecision Role.
Proof. solve_decision. Defined.

(** The dict [{"role": r, "content": c}]. *)
Record Turn := mkTurn { role : Role; content : string }.

Global Instance Turn_eq_dec : EqDecision Turn.
Proof. solve_decision. Defined.

(** A row of [usage_stats]; [id] is the autoincrement key. *)
Record UsageRow := mkUsage {
  usage_user_id : string;
  usage_guild_id : string;
  usage_channel_id : string;
  usage_timestamp : string;
  message_length : nat;
  response_length : nat
}.

(** The non-key columns of [allowed_channels]. *)
Record AllowedRow := mkAllowed { added_by : string; added_at : string }.

(** [self] of [LumiCog], with the two tables of [lumi_config.db].
    [allowed_channels] has PRIMARY KEY (guild_id, channel_id): a map. *)
Record Cog := mkCog {
  bot_user_id : N;
  conversation_history : gmap string (list Turn);
  allowed_channels : gmap (string * string) AllowedRow;
  usage_stats : list UsageRow
}.

Definition max_history : nat := 3.

Definition system_prompt : Turn :=
  mkTurn system "You are Lumi, an 18-year-old girl who enjoys talking with friends on Discord. You're friendly, helpful, and a bit playful. You have many interests like music, art, games, and hanging out with friends. Keep your responses short, casual, and genuine like a real teenager would talk. Don't mention that you're an AI or that you're powered by any model. Just be Lumi.".

(** [LumiCog.__init__] on a fresh store. *)
Definition init (bot : N) : Cog := mkCog bot ∅ ∅ [].

(** An inbound message as [on_message] reads it. *)
Record Message := mkMessage {
  msg_author : N;
  msg_is_dm : bool;            (* isinstance(message.channel, DMChannel) *)
  msg_guild : option N;        (* message.guild *)
  msg_channel : N;
  msg_mentions_bot : bool;     (* self.bot.user.mentioned_in(message) *)
  msg_content : string
}.

(** What [requests.post] and the extraction of the reply produce.
    [body] is [json()["choices"][0]["message"]["content"]], [None] when
    decoding or indexing raises. *)
Inductive Upstream :=
| PostRaised
| Responded (status_code : Z) (text : string) (body : option string).

Inductive FailureKind := TransportFailure | UpstreamError | MalformedResponse.

(** The environment of one [process_message]. *)
Record Env := mkEnv {
  post : list Turn → Upstream;
  reply_raises : bool;         (* message.reply(response) raises *)
  store_raises : bool;         (* log_usage raises *)
  clock : string               (* datetime.now().isoformat() *)
}.

Inductive Event :=
| ApiCall (messages : list Turn)
| Reply (text : string)
| Raised.

(** The invocation context of a command. *)
Record Ctx := mkCtx {
  ctx_guild : option N;
  ctx_channel : N;
  ctx_author : N
}.

(** What a command sends back; the argument is the mentioned id. *)
Inductive Feedback :=
| ServersOnly
| NowChatting (channel : N)
| ErrorAdding
| NoLongerChatting (channel : N)
| NotInAllowedList
| ErrorRemoving
| HistoryReset (target : N)
| NoHistoryFound (target : N).

(** ** Store *)

(** [SELECT COUNT( * ) ... WHERE guild_id = ? AND channel_id = ?] is
    positive exactly when the key has a row. *)
Definition is_channel_allowed (st : Cog) (guild_id channel_id : string) : bool :=
  bool_decide (is_Some (allowed_channels st !! (guild_id, channel_id))).

(** [INSERT INTO usage_stats ...]: one more row, after the others. *)
Definition log_usage (st : Cog) (now user_id guild_id channel_id : string)
    (message_length response_length : nat) : Cog :=
  mkCog (bot_user_id st) (conversation_history st) (allowed_channels st)
    (usage_stats st ++
       [mkUsage user_id guild_id channel_id now message_length response_length]).

(** ** Conversation window *)

(** [l.append(t)] followed by
    [if len(l) > self.max_history: l = l[-self.max_history:]]. *)
Definition append_turn (w : list Turn) (t : Turn) : list Turn :=
  let w1 := w ++ [t] in
  if decide (max_history < length w1) then Py.slice_last max_history w1 else w1.

(** [if user_id not in self.conversation_history: ... = []] *)
Definition ensure_window (user_id : string) (h : gmap string (list Turn))
    : gmap string (list Turn) :=
  match h !! user_id with
  | Some _ => h
  | None => <[user_id := []]> h
  end.

(** [self.conversation_history[user_id]], read where the key is known
    to exist; an absent user has the empty window. *)
Definition window (user_id : string) (h : gmap string (list Turn)) : list Turn :=
  default [] (h !! user_id).

Definition remember (user_id : string) (t : Turn) (h : gmap string (list Turn))
    : gmap string (list Turn) :=
  <[user_id := append_turn (window user_id h) t]> h.

Definition set_history (st : Cog) (h : gmap string (list Turn)) : Cog :=
  mkCog (bot_user_id st) h (allowed_channels st) (usage_stats st).

(** ** Completion client *)

Definition network_error_text : string :=
  "Network error occurred. Please try again later.".

Definition api_error_text : string :=
  "Sorry, I couldn't generate a response right now. Try again later?".

Definition oops_text : string :=
  "Oops! Something went wrong. Try again in a bit?".

Definition call_groq_api (e : Env) (messages : list Turn) : string :=
  match post e messages with
  | Responded code _ body =>
      if decide (code = 200%Z) then
        match body with
        | Some text => text
        | None => network_error_text
        end
      else api_error_text
  | PostRaised => network_error_text
  end.

(** The failure of an exchange, if it is one. *)
Definition failure_of (u : Upstream) : option FailureKind :=
  match u with
  | PostRaised => Some TransportFailure
  | Responded code _ body =>
      if decide (code = 200%Z) then
        match body with
        | Some _ => None
        | None => Some MalformedResponse
        end
      else Some UpstreamError
  end.

(** The text each branch of [call_groq_api] returns on failure. *)
Definition fallback_text (k : FailureKind) : string :=
  match k with
  | TransportFailure | MalformedResponse => network_error_text
  | UpstreamError => api_error_text
  end.

(** ** Dispatch *)

Definition mention_token (bot : N) : string := "<@" +:+ pretty bot +:+ ">".

Definition clean_content (bot : N) (raw : string) : string :=
  Py.strip (Py.replace (mention_token bot) "" raw).

(** The message list handed to [call_groq_api], with the history as it
    is at that point (lines 136-157). *)
Definition build_prompt (st : Cog) (m : Message)
    : gmap string (list Turn) * list Turn :=
  let user_id := pretty (msg_author m) in
  let h0 := ensure_window user_id (conversation_history st) in
  let h1 := remember user_id
              (mkTurn user (clean_content (bot_user_id st) (msg_content m))) h0 in
  (h1, system_prompt :: window user_id h1).

(** [process_message]. An exception inside the [try] leaves the
    history as it is at that point and sends the apology of the
    [except] branch. The trace records that apology as sent: whether
    that second [message.reply], or [typing()], raises in turn is not an
    input of the model, and neither changes the state. *)
Definition process_message (e : Env) (st : Cog) (m : Message) : Cog * list Event :=
  let user_id := pretty (msg_author m) in
  let clean := clean_content (bot_user_id st) (msg_content m) in
  let '(h1, messages) := build_prompt st m in
  let response := call_groq_api e messages in
  if reply_raises e then
    (set_history st h1, [ApiCall messages; Reply oops_text])
  else
    let h2 := remember user_id (mkTurn assistant response) h1 in
    let guild_id := match msg_guild m with Some g => pretty g | None => "DM" end in
    let channel_id := pretty (msg_channel m) in
    if store_raises e then
      (set_history st h2, [ApiCall messages; Reply response; Reply oops_text])
    else
      (log_usage (set_history st h2) (clock e) user_id guild_id channel_id
         (String.length clean) (String.length response),
       [ApiCall messages; Reply response]).

(** [on_message]. [message.guild.id] raises for a message that is
    neither a direct message nor in a guild. *)
Definition on_message (e : Env) (st : Cog) (m : Message) : Cog * list Event :=
  if decide (msg_author m = bot_user_id st) then (st, [])
  else if msg_is_dm m then process_message e st m
  else
    match msg_guild m with
    | None => (st, [Raised])
    | Some g =>
        if msg_mentions_bot m || is_channel_allowed st (pretty g) (pretty (msg_channel m))
        then process_message e st m
        else (st, [])
    end.

(** ** Admin commands

    The bodies of the command coroutines; the host framework runs the
    [has_permissions] check before them. [db_raises] says whether the
    statement or its commit raises, in which case nothing is written. *)

Definition set_allowed (st : Cog) (a : gmap (string * string) AllowedRow) : Cog :=
  mkCog (bot_user_id st) (conversation_history st) a (usage_stats st).

Definition add_channel (db_raises : bool) (now : string) (st : Cog) (ctx : Ctx)
    (channel : option N) : Cog * Feedback :=
  match ctx_guild ctx with
  | None => (st, ServersOnly)
  | Some g =>
      let ch := default (ctx_channel ctx) channel in
      let guild_id := pretty g in
      let channel_id := pretty ch in
      let added_by := pretty (ctx_author ctx) in
      if db_raises then (st, ErrorAdding)
      else
        (set_allowed st
           (<[(guild_id, channel_id) := mkAllowed added_by now]> (allowed_channels st)),
         NowChatting ch)
  end.

Definition remove_channel (db_raises : bool) (st : Cog) (ctx : Ctx)
    (channel : option N) : Cog * Feedback :=
  match ctx_guild ctx with
  | None => (st, ServersOnly)
  | Some g =>
      let ch := default (ctx_channel ctx) channel in
      let guild_id := pretty g in
      let channel_id := pretty ch in
      if db_raises then (st, ErrorRemoving)
      else
        let rowcount :=
          match allowed_channels st !! (guild_id, channel_id) with
          | Some _ => 1
          | None => 0
          end in
        (set_allowed st (delete (guild_id, channel_id) (allowed_channels st)),
         if decide (0 < rowcount) then NoLongerChatting ch else NotInAllowedList)
  end.

Definition reset_history (st : Cog) (ctx : Ctx) (target : option N)
    : Cog * Feedback :=
  let target_user := default (ctx_author ctx) target in
  let user_id := pretty target_user in
  match conversation_history st !! user_id with
  | Some _ =>
      (set_history st (<[user_id := []]> (conversation_history st)),
       HistoryReset target_user)
  | None => (st, NoHistoryFound target_user)
  end.

(** ** Runs of the cog *)

Inductive Action :=
| OnMessage (e : Env) (m : Message)
| AddChannel (db_raises : bool) (now : string) (ctx : Ctx) (channel : option N)
| RemoveChannel (db_raises : bool) (ctx : Ctx) (channel : option N)
| ResetHistory (ctx : Ctx) (target : option N).

Definition step (st : Cog) (a : Action) : Cog :=
  match a with
  | OnMessage e m => (on_message e st m).1
  | AddChannel f now ctx ch => (add_channel f now st ctx ch).1
  | RemoveChannel f ctx ch => (remove_channel f st ctx ch).1
  | ResetHistory ctx t => (reset_history st ctx t).1
  end.

(** The states the cog can be in: any run from a fresh start. *)
Inductive reachable (bot : N) : Cog → Prop :=
| reachable_init : reachable bot (init bot)
| reachable_step st a : reachable bot st → reachable bot (step st a).

(** The most recent [n] entries of [l], oldest first. *)
Definition most_recent {A} (n : nat) (l : list A) : list A :=
  drop (length l - n) l.

(** The messages of the [ApiCall] events of a trace. *)
Definition api_calls (evs : list Event) : list (list Turn) :=
  omap (λ ev, match ev with ApiCall ms => Some ms | _ => None end) evs.

(** The texts of the [Reply] events of a trace. *)
Definition replies (evs : list Event) : list string :=
  omap (λ ev, match ev with Reply t => Some t | _ => None end) evs.

Definition count_role (r : Role) (ms : list Turn) : nat :=
  length (filter (λ t, role t = r) ms).

(** What every window of a run satisfies: within the bound, and made
    of user and assistant turns only. *)
Definition window_ok (w : list Turn) : Prop :=
  length w ≤ max_history ∧ Forall (λ t, role t ≠ system) w.

Definition history_ok (h : gmap string (list Turn)) : Prop :=
  map_Forall (λ _ w, window_ok w) h.

(** ** [int] of a string *)

Module PyInt.

Import Stdlib.Strings.Ascii.

(** The white space [int] skips at both ends: the code points 9 to 13,
    32, 133 and 160 (unlike [str.isspace], not 28 to 31). *)
Definition isspace (c : Ascii.ascii) : bool :=
  let n := Ascii.N_of_ascii c in
  ((9 <=? n) && (n <=? 13) || (n =? 32) || (n =? 133) || (n =? 160))%N.

Fixpoint lskip (s : string) : string :=
  match s with
  | EmptyString => EmptyString
  | String c s' => if isspace c then lskip s' else s
  end.

Definition skip (s : string) : string :=
  String.rev (lskip (String.rev (lskip s))).

Definition digit_value (c : Ascii.ascii) : option N :=
  let n := Ascii.N_of_ascii c in
  if ((48 <=? n) && (n <=? 57))%N then Some (n - 48)%N else None.

(** [sys.int_info.default_max_str_digits] *)
Definition max_str_digits : nat := 4300.

(** Decimal digits, with single underscores between digits allowed.
    [count] is the number of digits read, [after_digit] says whether
    the previous character was one. *)
Fixpoint digits (acc : N) (count : nat) (after_digit : bool) (s : string)
    : option N :=
  match s with
  | EmptyString =>
      if after_digit && bool_decide (count ≤ max_str_digits) then Some acc else None
  | String c s' =>
      match digit_value c with
      | Some d => digits (acc * 10 + d) (S count) true s'
      | None =>
          if decide (c = "_"%char) then
            if after_digit then digits acc count false s' else None
          else None
      end
  end.

(** [int(s)]; [None] stands for [ValueError]. *)
Definition int (s : string) : option Z :=
  match skip s with
  | String c r =>
      if decide (c = "+"%char) then Z.of_N <$> digits 0 0 false r
      else if decide (c = "-"%char) then (λ n, - Z.of_N n)%Z <$> digits 0 0 false r
      else Z.of_N <$> digits 0 0 false (String c r)
  | EmptyString => None
  end.

End PyInt.

(** ** Listing and statistics *)

(** [get_allowed_channels]: the [channel_id] column of the rows of one
    guild. The query has no ORDER BY; the list comes in the order of the
    map, and what is proved of it does not depend on the order. *)
Definition get_allowed_channels (st : Cog) (guild_id : string) : list string :=
  omap (λ row : string * string * AllowedRow,
          if decide (row.1.1 = guild_id) then Some row.1.2 else None)
    (map_to_list (allowed_channels st)).

(** What [list_channels] sends back; a mention is the channel's id. *)
Inductive ListFeedback :=
| ListServersOnly
| NoChannelsAdded
| ActiveIn (mentions : list Z)
| NoValidChannels
| ListError.

(** The loop of [list_channels]. [get_channel n] says whether
    [ctx.guild.get_channel(n)] is a channel; [None] when an [int]
    raises. *)
Fixpoint channel_mentions (get_channel : Z → bool) (ids : list string)
    : option (list Z) :=
  match ids with
  | [] => Some []
  | channel_id :: rest =>
      match PyInt.int channel_id with
      | None => None
      | Some n =>
          (λ mentions, if get_channel n then n :: mentions else mentions)
            <$> channel_mentions get_channel rest
      end
  end.

(** [list_channels]. An exception of the body reaches [command_error]. *)
Definition list_channels (db_raises : bool) (get_channel : Z → bool)
    (st : Cog) (ctx : Ctx) : ListFeedback :=
  match ctx_guild ctx with
  | None => ListServersOnly
  | Some g =>
      if db_raises then ListError
      else
        match get_allowed_channels st (pretty g) with
        | [] => NoChannelsAdded
        | allowed =>
            match channel_mentions get_channel allowed with
            | None => ListError
            | Some [] => NoValidChannels
            | Some mentions => ActiveIn mentions
            end
        end
  end.

(** The rows of [usage_stats] with [guild_id = ?]. *)
Definition guild_rows (st : Cog) (guild_id : string) : list UsageRow :=
  filter (λ r, usage_guild_id r = guild_id) (usage_stats st).

(** [SELECT COUNT( * ) FROM usage_stats WHERE guild_id = ?] *)
Definition total_messages (st : Cog) (guild_id : string) : nat :=
  length (guild_rows st guild_id).

(** [SELECT COUNT(DISTINCT user_id) FROM usage_stats WHERE guild_id = ?] *)
Definition unique_users (st : Cog) (guild_id : string) : nat :=
  size (list_to_set (usage_user_id <$> guild_rows st guild_id) : gset string).

(** The [count] of the group of one channel. *)
Definition channel_count (st : Cog) (guild_id channel_id : string) : nat :=
  length (filter (λ r, usage_channel_id r = channel_id) (guild_rows st guild_id)).

(** What [GROUP BY channel_id ORDER BY count DESC LIMIT 1] may return
    as [result[0]]: no row when the guild has none, else a channel whose
    group is as large as any; among equals the store chooses. *)
Definition top_channel_ok (st : Cog) (guild_id : string) (top : option string)
    : Prop :=
  match top with
  | None => guild_rows st guild_id = []
  | Some c =>
      0 < channel_count st guild_id c
      ∧ ∀ c', channel_count st guild_id c' ≤ channel_count st guild_id c
  end.

Inductive StatsFeedback :=
| StatsServersOnly
| StatsMessage (total unique : nat) (most_active : option Z)
| StatsError.

(** [show_stats], with [top] the channel of the row the third query
    returns. An empty id is falsy; an exception of the body is caught
    by its own [except]. *)
Definition show_stats (db_raises : bool) (get_channel : Z → bool)
    (top : option string) (st : Cog) (ctx : Ctx) : StatsFeedback :=
  match ctx_guild ctx with
  | None => StatsServersOnly
  | Some g =>
      if db_raises then StatsError
      else
        let total := total_messages st (pretty g) in
        let unique := unique_users st (pretty g) in
        match top with
        | None | Some EmptyString => StatsMessage total unique None
        | Some channel_id =>
            match PyInt.int channel_id with
            | None => StatsError
            | Some n =>
                StatsMessage total unique (if get_channel n then Some n else None)
            end
        end
  end.

(** ** Runs and text predicates used in the statements *)

(** The cog after a sequence of actions. *)
Definition run (st : Cog) (actions : list Action) : Cog := foldl step st actions.

Definition is_on_message (a : Action) : bool :=
  match a with
  | OnMessage _ _ => true
  | _ => false
  end.

(** Every character of [s] satisfies [P]. *)
Fixpoint all_chars (P : Ascii.ascii → bool) (s : string) : bool :=
  match s with
  | EmptyString => true
  | String c s' => P c && all_chars P s'
  end.

(** [c] is the character a mention token begins with. *)
Definition starts_mention (c : Ascii.ascii) : bool :=
  bool_decide (String c EmptyString = "<").

Definition is_digit (c : Ascii.ascii) : bool :=
  match PyInt.digit_value c with
  | Some _ => true
  | None => false
  end.

(** ** Sample inputs *)

(** A first direct message from user 7 to bot 1, and
    three environments for the exchange with the completion endpoint. *)
Definition hi_dm : Message := mkMessage 7 true None 55 false " <@1> hi ".

Definition env_ok : Env :=
  mkEnv (λ _, Responded 200 "{...}" (Some "hey!")) false false "2024-01-01T00:00:00".

Definition env_timeout : Env :=
  mkEnv (λ _, PostRaised) false false "2024-01-01T00:00:00".

Definition env_http500 : Env :=
  mkEnv (λ _, Responded 500 "Internal Server Error" None) false false
    "2024-01-01T00:00:00".

(** * Properties *)

(** ** Text cleaning *)

Section Text.

Lemma lstrip_head (s s' : string) (c : Ascii.ascii) :
  Py.lstrip s = String c s' → Py.isspace c = false.
Proof.
  induction s as [|a s IH]; simpl; [done|].
  destruct (Py.isspace a) eqn:Ha; [done|]. by intros [= <- _].
Qed.

Lemma lstrip_idempotent (s : string) : Py.lstrip (Py.lstrip s) = Py.lstrip s.
Proof.
  induction s as [|a s IH]; simpl; [done|].
  destruct (Py.isspace a) eqn:Ha; [done|]. simpl. by rewrite Ha.
Qed.

End Text.

(** ** The window as a bounded recency buffer *)

Section Window.

Lemma slice_last_most_recent {A} (n : nat) (l : list A) :
  0 < n → Py.slice_last n l = most_recent n l.
Proof. by destruct n; [lia|]. Qed.

Lemma most_recent_length {A} (n : nat) (l : list A) :
  length (most_recent n l) = min n (length l).
Proof. unfold most_recent. rewrite length_drop. lia. Qed.

Lemma most_recent_all {A} (n : nat) (l : list A) :
  length l ≤ n → most_recent n l = l.
Proof.
  intros Hle. unfold most_recent.
  by replace (length l - n) with 0 by lia.
Qed.

Lemma most_recent_split {A} (n : nat) (l1 l2 : list A) :
  n ≤ length l2 → most_recent n (l1 ++ l2) = most_recent n l2.
Proof.
  intros Hn. unfold most_recent. rewrite length_app.
  replace (length l1 + length l2 - n) with (length l1 + (length l2 - n)) by lia.
  by rewrite drop_app_add.
Qed.

(** Trimming early loses nothing a later trim would have kept. *)
Lemma most_recent_app {A} (n m : nat) (l k : list A) :
  n ≤ m + length k →
  most_recent n (most_recent m l ++ k) = most_recent n (l ++ k).
Proof.
  intros Hn.
  destruct (decide (length l ≤ m)) as [Hs|Hs].
  - by rewrite (most_recent_all m l).
  - rewrite <- (take_drop (length l - m) l) at 2.
    rewrite <- app_assoc.
    rewrite (most_recent_split n (take (length l - m) l)); [done|].
    rewrite length_app, length_drop. lia.
Qed.

Lemma append_turn_most_recent (w : list Turn) (t : Turn) :
  append_turn w t = most_recent max_history (w ++ [t]).
Proof.
  unfold append_turn. case_decide as Hlen.
  - apply slice_last_most_recent. unfold max_history. lia.
  - symmetry. apply most_recent_all. lia.
Qed.

Lemma append_turn_length (w : list Turn) (t : Turn) :
  length (append_turn w t) ≤ max_history.
Proof. rewrite append_turn_most_recent, most_recent_length. lia. Qed.

Lemma append_turn_roles (P : Turn → Prop) (w : list Turn) (t : Turn) :
  Forall P w → P t → Forall P (append_turn w t).
Proof.
  intros Hw Ht. rewrite append_turn_most_recent. unfold most_recent.
  apply Forall_drop, Forall_app. by split; [|constructor].
Qed.

(** Appending [ts] to [w] one by one keeps the last [max_history]
    of everything ever in the window. *)
Lemma foldl_append_turn (w ts : list Turn) :
  length w ≤ max_history ∨ ts ≠ [] →
  foldl append_turn w ts = most_recent max_history (w ++ ts).
Proof.
  induction ts as [|t ts IH] using rev_ind; intros Hor.
  - destruct Hor as [Hw|]; [|done].
    rewrite app_nil_r. symmetry. by apply most_recent_all.
  - rewrite foldl_snoc, append_turn_most_recent.
    destruct (decide (ts = [])) as [->|Hne]; [done|].
    rewrite IH by auto. rewrite app_assoc.
    apply most_recent_app. unfold max_history. simpl. lia.
Qed.

End Window.

(** ** The history map *)

Section History.

Implicit Types (h : gmap string (list Turn)) (w : list Turn) (t : Turn).

Lemma window_ensure uid h : window uid (ensure_window uid h) = window uid h.
Proof.
  unfold window, ensure_window.
  destruct (h !! uid) eqn:E; [by rewrite E|by rewrite lookup_insert_eq].
Qed.

Lemma window_remember uid t h :
  window uid (remember uid t h) = append_turn (window uid h) t.
Proof. unfold window at 1, remember. by rewrite lookup_insert_eq. Qed.

Lemma lookup_remember_ne uid uid' t h :
  uid ≠ uid' → remember uid t h !! uid' = h !! uid'.
Proof. intros Hne. unfold remember. by rewrite lookup_insert_ne. Qed.

Lemma window_ok_nil : window_ok [].
Proof. split; [unfold max_history; simpl; lia|constructor]. Qed.

Lemma window_ok_append w t :
  window_ok w → role t ≠ system → window_ok (append_turn w t).
Proof.
  intros [_ Hroles] Ht. split.
  - apply append_turn_length.
  - by apply append_turn_roles.
Qed.

Lemma history_ok_window uid h : history_ok h → window_ok (window uid h).
Proof.
  intros Hok. unfold window.
  destruct (h !! uid) eqn:E; [by apply (Hok uid)|apply window_ok_nil].
Qed.

Lemma history_ok_ensure uid h : history_ok h → history_ok (ensure_window uid h).
Proof.
  intros Hok. unfold ensure_window.
  destruct (h !! uid); [done|].
  apply map_Forall_insert_2; [apply window_ok_nil|done].
Qed.

Lemma history_ok_remember uid t h :
  history_ok h → role t ≠ system → history_ok (remember uid t h).
Proof.
  intros Hok Ht. unfold remember.
  apply map_Forall_insert_2; [|done].
  apply window_ok_append; [by apply history_ok_window|done].
Qed.

End History.

(** ** The prompt and the steps of the cog *)

Section Steps.

Implicit Types (st : Cog) (m : Message) (e : Env).

Lemma build_prompt_window st m :
  window (pretty (msg_author m)) (build_prompt st m).1
  = append_turn (window (pretty (msg_author m)) (conversation_history st))
      (mkTurn user (clean_content (bot_user_id st) (msg_content m))).
Proof. unfold build_prompt. simpl. by rewrite window_remember, window_ensure. Qed.

Lemma build_prompt_messages st m :
  (build_prompt st m).2
  = system_prompt :: window (pretty (msg_author m)) (build_prompt st m).1.
Proof. done. Qed.

Lemma build_prompt_ok st m :
  history_ok (conversation_history st) → history_ok (build_prompt st m).1.
Proof.
  intros Hok. unfold build_prompt. simpl.
  apply history_ok_remember; [by apply history_ok_ensure|done].
Qed.

Lemma process_message_history e st m :
  conversation_history (process_message e st m).1
  = if reply_raises e then (build_prompt st m).1
    else remember (pretty (msg_author m))
           (mkTurn assistant (call_groq_api e (build_prompt st m).2))
           (build_prompt st m).1.
Proof.
  unfold process_message.
  destruct (build_prompt st m) as [h1 ms]. simpl.
  by destruct (reply_raises e), (store_raises e).
Qed.

Lemma process_message_bot e st m :
  bot_user_id (process_message e st m).1 = bot_user_id st.
Proof.
  unfold process_message.
  destruct (build_prompt st m) as [h1 ms].
  by destruct (reply_raises e), (store_raises e).
Qed.

Lemma process_message_api_calls e st m :
  api_calls (process_message e st m).2 = [(build_prompt st m).2].
Proof.
  unfold process_message.
  destruct (build_prompt st m) as [h1 ms].
  by destruct (reply_raises e), (store_raises e).
Qed.

Lemma process_message_replies e st m :
  replies (process_message e st m).2
  = if reply_raises e then [oops_text]
    else call_groq_api e (build_prompt st m).2
         :: (if store_raises e then [oops_text] else []).
Proof.
  unfold process_message.
  destruct (build_prompt st m) as [h1 ms].
  by destruct (reply_raises e), (store_raises e).
Qed.

Lemma process_message_ok e st m :
  history_ok (conversation_history st) →
  history_ok (conversation_history (process_message e st m).1).
Proof.
  intros Hok. rewrite process_message_history.
  pose proof (build_prompt_ok st m Hok).
  destruct (reply_raises e); [done|].
  by apply history_ok_remember.
Qed.

(** [on_message] either leaves the cog alone or is [process_message]. *)
Lemma on_message_cases e st m :
  (on_message e st m).1 = st ∧ api_calls (on_message e st m).2 = []
                           ∧ replies (on_message e st m).2 = []
  ∨ on_message e st m = process_message e st m.
Proof.
  unfold on_message.
  case_decide; [by left|].
  destruct (msg_is_dm m); [by right|].
  destruct (msg_guild m); [|by left].
  destruct (_ || _); [by right|by left].
Qed.

Lemma step_history_ok st a :
  history_ok (conversation_history st) →
  history_ok (conversation_history (step st a)).
Proof.
  intros Hok. destruct a as [e m|f now ctx ch|f ctx ch|ctx t]; simpl.
  - destruct (on_message_cases e st m) as [[-> _] | ->]; [done|].
    by apply process_message_ok.
  - unfold add_channel. destruct (ctx_guild ctx); [|done]. by destruct f.
  - unfold remove_channel. destruct (ctx_guild ctx); [|done]. by destruct f.
  - unfold reset_history. destruct (_ !! _); [|done]. simpl.
    apply map_Forall_insert_2; [apply window_ok_nil|done].
Qed.

Lemma step_bot st a : bot_user_id (step st a) = bot_user_id st.
Proof.
  destruct a as [e m|f now ctx ch|f ctx ch|ctx t]; simpl.
  - destruct (on_message_cases e st m) as [[-> _] | ->]; [done|].
    apply process_message_bot.
  - unfold add_channel. destruct (ctx_guild ctx); [|done]. by destruct f.
  - unfold remove_channel. destruct (ctx_guild ctx); [|done]. by destruct f.
  - unfold reset_history. by destruct (_ !! _).
Qed.

Lemma reachable_history_ok bot st :
  reachable bot st → history_ok (conversation_history st).
Proof.
  induction 1 as [|st a _ IH]; [apply map_Forall_empty|by apply step_history_ok].
Qed.

Lemma reachable_bot bot st : reachable bot st → bot_user_id st = bot.
Proof. induction 1 as [|st a _ IH]; [done|by rewrite step_bot]. Qed.

End Steps.

(** ** The completion client *)

Section Completion.

Lemma call_groq_api_failure e ms k :
  failure_of (post e ms) = Some k → call_groq_api e ms = fallback_text k.
Proof.
  unfold failure_of, call_groq_api.
  destruct (post e ms) as [|code text [body|]]; repeat case_decide; naive_solver.
Qed.

Lemma call_groq_api_success e ms :
  failure_of (post e ms) = None →
  ∃ text, post e ms = Responded 200 text.1 (Some text.2)
          ∧ call_groq_api e ms = text.2.
Proof.
  unfold failure_of, call_groq_api.
  destruct (post e ms) as [|code text [body|]]; repeat case_decide;
    try done.
  subst code. intros _. by exists (text, body).
Qed.

Lemma count_role_absent r (w : list Turn) :
  Forall (λ t, role t ≠ r) w → count_role r w = 0.
Proof.
  unfold count_role. induction 1 as [|t w Ht _ IH]; [done|].
  by rewrite filter_cons_False.
Qed.

End Completion.

(** * The claims *)

(** A first direct message ["hi"] answered ["hey!"]: the prompt is the
    system turn and the user turn, and the window holds the exchange. *)
Example first_dm_scenario :
  on_message env_ok (init 1) hi_dm
  = (mkCog 1 {[ "7" := [mkTurn user "hi"; mkTurn assistant "hey!"] ]} ∅
       [mkUsage "7" "DM" "55" "2024-01-01T00:00:00" 2 4],
     [ApiCall [system_prompt; mkTurn user "hi"]; Reply "hey!"]).
Proof. by vm_compute. Qed.

Example clean_content_examples :
  clean_content 12 "  <@12> what's up?  " = "what's up?"
  ∧ clean_content 12 "<@12><@12>" = ""
  ∧ clean_content 12 "<@1<@12>2>" = "<@12>"
  ∧ clean_content 12 "<@!12> hi" = "<@!12> hi".
Proof. by vm_compute. Qed.

(** C1 (as amended). Whatever turns are appended to an empty window,
    the window is never longer than [max_history] entries (so never
    longer than [2 * max_history] either), and it holds exactly the most
    recent [min total max_history] turns appended, oldest first. *)
Theorem window_keeps_most_recent (ts : list Turn) :
  length (foldl append_turn [] ts) ≤ max_history
  ∧ length (foldl append_turn [] ts) ≤ 2 * max_history
  ∧ foldl append_turn [] ts = most_recent (min (length ts) max_history) ts.
Proof.
  assert (foldl append_turn [] ts = most_recent max_history ts) as Hw.
  { rewrite foldl_append_turn; [done|]. left. simpl. lia. }
  rewrite Hw, most_recent_length. split_and!; [lia|lia|].
  unfold most_recent. f_equal. lia.
Qed.

(** C1 (as stated) fails: after four appends the window holds three
    turns, not the [min 4 (2 * max_history) = 4] most recent ones. *)
Lemma window_twice_max_history_counterexample :
  foldl append_turn []
    [mkTurn user "a"; mkTurn assistant "b"; mkTurn user "c"; mkTurn assistant "d"]
  = [mkTurn assistant "b"; mkTurn user "c"; mkTurn assistant "d"]
  ∧ foldl append_turn []
      [mkTurn user "a"; mkTurn assistant "b"; mkTurn user "c"; mkTurn assistant "d"]
    ≠ most_recent (min 4 (2 * max_history))
        [mkTurn user "a"; mkTurn assistant "b"; mkTurn user "c"; mkTurn assistant "d"].
Proof. split; [done|]. vm_compute. discriminate. Qed.

(** C8. In every state of a run, after an inbound message has been
    handled, every user's window holds at most [max_history = 3] turns,
    and a request carries at most three history turns after the system
    turn. *)
Theorem window_at_most_max_history (bot : N) (st : Cog) (e : Env) (m : Message) :
  reachable bot st →
  max_history = 3
  ∧ (∀ uid w, conversation_history (on_message e st m).1 !! uid = Some w →
              length w ≤ 3)
  ∧ (∀ ms, ms ∈ api_calls (on_message e st m).2 → length ms ≤ 1 + 3).
Proof.
  intros Hreach. split_and!; [done| |].
  - intros uid w Hw.
    pose proof (reachable_history_ok bot _ (reachable_step bot st (OnMessage e m) Hreach))
      as Hok.
    by destruct (Hok uid w Hw).
  - intros ms Hms.
    destruct (on_message_cases e st m) as [(_ & Hnone & _)|Heq].
    + rewrite Hnone in Hms. by apply elem_of_nil in Hms.
    + rewrite Heq, process_message_api_calls in Hms.
      apply list_elem_of_singleton in Hms as ->.
      rewrite build_prompt_messages, build_prompt_window. simpl.
      pose proof (append_turn_length
        (window (pretty (msg_author m)) (conversation_history st))
        (mkTurn user (clean_content (bot_user_id st) (msg_content m)))).
      unfold max_history in *. lia.
Qed.

Lemma window_at_most_max_history_witness :
  reachable 1 (init 1)
  ∧ (∀ uid w,
       conversation_history (on_message env_ok (init 1) hi_dm).1 !! uid = Some w →
       length w ≤ 3).
Proof.
  split; [constructor|].
  apply (window_at_most_max_history 1 (init 1) env_ok hi_dm (reachable_init 1)).
Defined.

(** C5. In every state of a run, the one request [process_message]
    sends is the system turn followed by the author's trimmed window
    after one user turn with the cleaned text has been appended: the
    last [max_history] entries of the old window followed by that turn.
    That is the window stored at that point; no window ever holds a
    system turn, and so the request has exactly one, in first place, and
    at most [1 + max_history] turns. *)
Theorem prompt_is_system_then_window (bot : N) (st : Cog) (e : Env) (m : Message) :
  reachable bot st →
  api_calls (process_message e st m).2
  = [system_prompt
     :: most_recent max_history
          (window (pretty (msg_author m)) (conversation_history st)
           ++ [mkTurn user
                 (Py.strip (Py.replace (mention_token bot) "" (msg_content m)))])]
  ∧ window (pretty (msg_author m)) (build_prompt st m).1
    = most_recent max_history
        (window (pretty (msg_author m)) (conversation_history st)
         ++ [mkTurn user
               (Py.strip (Py.replace (mention_token bot) "" (msg_content m)))])
  ∧ (∀ ms, ms ∈ api_calls (process_message e st m).2 →
           head ms = Some system_prompt ∧ count_role system ms = 1
           ∧ length ms ≤ 1 + max_history)
  ∧ (∀ uid w, conversation_history (process_message e st m).1 !! uid = Some w →
              count_role system w = 0).
Proof.
  intros Hreach.
  pose proof (reachable_bot _ _ Hreach) as Hbot.
  pose proof (reachable_history_ok _ _ Hreach) as Hok.
  assert (window (pretty (msg_author m)) (build_prompt st m).1
    = most_recent max_history
        (window (pretty (msg_author m)) (conversation_history st)
         ++ [mkTurn user
               (Py.strip (Py.replace (mention_token bot) "" (msg_content m)))]))
    as Hwin.
  { rewrite build_prompt_window, append_turn_most_recent.
    unfold clean_content. by rewrite Hbot. }
  rewrite process_message_api_calls, build_prompt_messages, Hwin.
  split_and!; [done|done| |].
  - intros ms ->%list_elem_of_singleton. split_and!; [done| |].
    + unfold count_role. rewrite filter_cons_True by done. simpl. f_equal.
      apply count_role_absent. rewrite <- append_turn_most_recent.
      apply window_ok_append; [by apply history_ok_window|done].
    + cbn [length]. rewrite most_recent_length. lia.
  - intros uid w Hw. apply count_role_absent.
    by destruct (process_message_ok e st m Hok uid w Hw).
Qed.

Lemma prompt_is_system_then_window_witness :
  reachable 1 (step (step (init 1) (OnMessage env_ok hi_dm)) (OnMessage env_ok hi_dm))
  ∧ window "7"
      (conversation_history
         (step (step (init 1) (OnMessage env_ok hi_dm)) (OnMessage env_ok hi_dm)))
    = [mkTurn assistant "hey!"; mkTurn user "hi"; mkTurn assistant "hey!"]
  ∧ api_calls
      (process_message env_ok
         (step (step (init 1) (OnMessage env_ok hi_dm)) (OnMessage env_ok hi_dm))
         (mkMessage 7 true None 55 false "and then?")).2
    = [[system_prompt; mkTurn user "hi"; mkTurn assistant "hey!";
        mkTurn user "and then?"]].
Proof.
  assert (reachable 1
            (step (step (init 1) (OnMessage env_ok hi_dm)) (OnMessage env_ok hi_dm)))
    as Hreach by (do 2 apply reachable_step; apply reachable_init).
  split_and!; [exact Hreach|by vm_compute|].
  destruct (prompt_is_system_then_window 1 _ env_ok
              (mkMessage 7 true None 55 false "and then?") Hreach) as [Hcall _].
  rewrite Hcall. by vm_compute.
Defined.

(** C2 (as amended). When the completion call fails, [call_groq_api]
    hands its fallback text back as the reply. If that reply is sent,
    it is appended to the author's window as an assistant turn (and the
    window trimmed) on top of what building the prompt appended; only if
    sending raises does the window stay as building the prompt left it. *)
Theorem failed_completion_window (e : Env) (st : Cog) (m : Message) (k : FailureKind) :
  failure_of (post e (build_prompt st m).2) = Some k →
  window (pretty (msg_author m)) (conversation_history (process_message e st m).1)
  = if reply_raises e
    then window (pretty (msg_author m)) (build_prompt st m).1
    else append_turn (window (pretty (msg_author m)) (build_prompt st m).1)
           (mkTurn assistant (fallback_text k)).
Proof.
  intros Hfail. rewrite process_message_history.
  destruct (reply_raises e); [done|].
  by rewrite window_remember, (call_groq_api_failure _ _ _ Hfail).
Qed.

Lemma failed_completion_window_witness :
  failure_of (post env_timeout (build_prompt (init 1) hi_dm).2) = Some TransportFailure
  ∧ window "7" (conversation_history (process_message env_timeout (init 1) hi_dm).1)
    = [mkTurn user "hi"; mkTurn assistant network_error_text].
Proof.
  split; [done|].
  exact (failed_completion_window env_timeout (init 1) hi_dm TransportFailure eq_refl).
Defined.

(** C2 (as stated) fails: after a timed-out call the window holds the
    fallback text as an assistant turn, beyond the user turn that
    building the prompt appended. *)
Lemma failed_completion_counterexample :
  failure_of (post env_timeout (build_prompt (init 1) hi_dm).2) = Some TransportFailure
  ∧ window "7" (build_prompt (init 1) hi_dm).1 = [mkTurn user "hi"]
  ∧ window "7" (conversation_history (on_message env_timeout (init 1) hi_dm).1)
    = [mkTurn user "hi"; mkTurn assistant "Network error occurred. Please try again later."]
  ∧ window "7" (conversation_history (on_message env_timeout (init 1) hi_dm).1)
    ≠ window "7" (build_prompt (init 1) hi_dm).1.
Proof. split_and!; [done|done|done|]. vm_compute. discriminate. Qed.

(** C3 (as amended). The text substituted for a failed completion call
    depends on the kind of failure only, never on the upstream detail:
    a transport failure and a malformed response give the network-error
    text, a non-200 status gives the could-not-generate text; it is the
    reply the user receives. The two texts differ. *)
Theorem failure_text_by_kind (e : Env) (st : Cog) (m : Message) (k : FailureKind) :
  failure_of (post e (build_prompt st m).2) = Some k →
  call_groq_api e (build_prompt st m).2 = fallback_text k
  ∧ (reply_raises e = false →
     head (replies (process_message e st m).2) = Some (fallback_text k))
  ∧ fallback_text TransportFailure
    = "Network error occurred. Please try again later."
  ∧ fallback_text MalformedResponse
    = "Network error occurred. Please try again later."
  ∧ fallback_text UpstreamError
    = "Sorry, I couldn't generate a response right now. Try again later?".
Proof.
  intros Hfail. pose proof (call_groq_api_failure _ _ _ Hfail) as Hcall.
  split_and!; [done| |done|done|done].
  intros Hreply. by rewrite process_message_replies, Hreply, Hcall.
Qed.

Lemma failure_text_by_kind_witness :
  failure_of (post env_http500 (build_prompt (init 1) hi_dm).2) = Some UpstreamError
  ∧ call_groq_api env_http500 (build_prompt (init 1) hi_dm).2
    = "Sorry, I couldn't generate a response right now. Try again later?".
Proof.
  split; [done|].
  destruct (failure_text_by_kind env_http500 (init 1) hi_dm UpstreamError eq_refl)
    as [Hcall _].
  exact Hcall.
Defined.

(** C3 (as stated) fails: a timeout and an HTTP 500 are both failures,
    and the same message is answered with two different texts. *)
Lemma failure_text_counterexample :
  failure_of (post env_timeout (build_prompt (init 1) hi_dm).2) = Some TransportFailure
  ∧ failure_of (post env_http500 (build_prompt (init 1) hi_dm).2) = Some UpstreamError
  ∧ replies (on_message env_timeout (init 1) hi_dm).2
    = ["Network error occurred. Please try again later."]
  ∧ replies (on_message env_http500 (init 1) hi_dm).2
    = ["Sorry, I couldn't generate a response right now. Try again later?"]
  ∧ replies (on_message env_timeout (init 1) hi_dm).2
    ≠ replies (on_message env_http500 (init 1) hi_dm).2.
Proof. split_and!; [done|done|done|done|]. vm_compute. discriminate. Qed.




(** C6. Resetting a user without a window reports that no history was
    found and changes nothing; resetting a user whose window holds at
    least one turn empties it and reports the reset; either way the
    user's window reads empty afterwards. *)
Theorem reset_outcomes (st : Cog) (ctx : Ctx) (target : option N) :
  (conversation_history st !! pretty (default (ctx_author ctx) target) = None →
   reset_history st ctx target = (st, NoHistoryFound (default (ctx_author ctx) target)))
  ∧ (∀ w, conversation_history st !! pretty (default (ctx_author ctx) target) = Some w →
          w ≠ [] →
          (reset_history st ctx target).2
          = HistoryReset (default (ctx_author ctx) target)
          ∧ conversation_history (reset_history st ctx target).1
              !! pretty (default (ctx_author ctx) target) = Some [])
  ∧ window (pretty (default (ctx_author ctx) target))
      (conversation_history (reset_history st ctx target).1) = [].
Proof.
  unfold reset_history, window.
  destruct (conversation_history st !! _) as [w|] eqn:Hw; simpl.
  - split_and!; [done| |by rewrite lookup_insert_eq].
    intros _ _ _. by rewrite lookup_insert_eq.
  - split_and!; [done|done|by rewrite Hw].
Qed.

Lemma reset_outcomes_witness :
  conversation_history (init 1) !! pretty (default 7%N None) = None
  ∧ reset_history (init 1) (mkCtx None 55 7) None = (init 1, NoHistoryFound 7).
Proof.
  split; [done|].
  destruct (reset_outcomes (init 1) (mkCtx None 55 7) None) as [Hnone _].
  by apply Hnone.
Defined.

(** C9. The outcome of a reset depends on the presence of the user's
    key alone: present, the reset is reported, also for a window that is
    already empty; absent, no history is found. A reset that reported a
    reset leaves the key in place, so the next one reports a reset too. *)
Theorem reset_outcome_by_key (st : Cog) (ctx : Ctx) (target : option N) :
  ((reset_history st ctx target).2 = HistoryReset (default (ctx_author ctx) target)
   ↔ is_Some (conversation_history st !! pretty (default (ctx_author ctx) target)))
  ∧ ((reset_history st ctx target).2 = NoHistoryFound (default (ctx_author ctx) target)
     ↔ conversation_history st !! pretty (default (ctx_author ctx) target) = None)
  ∧ (conversation_history st !! pretty (default (ctx_author ctx) target) = Some [] →
     (reset_history st ctx target).2 = HistoryReset (default (ctx_author ctx) target))
  ∧ ((reset_history st ctx target).2 = HistoryReset (default (ctx_author ctx) target) →
     (reset_history (reset_history st ctx target).1 ctx target).2
     = HistoryReset (default (ctx_author ctx) target)).
Proof.
  unfold reset_history.
  destruct (conversation_history st !! _) as [w|] eqn:Hw; simpl.
  - rewrite lookup_insert_eq. split_and!; [|done|done|done].
    split; [by eexists|done].
  - rewrite Hw. split_and!; [|done|done|done].
    split; [done|by intros [? ?]].
Qed.

Lemma reset_outcome_by_key_witness :
  conversation_history (mkCog 1 {[ "7" := [] ]} ∅ []) !! pretty (default 7%N None)
  = Some []
  ∧ (reset_history (mkCog 1 {[ "7" := [] ]} ∅ []) (mkCtx None 55 7) None).2
    = HistoryReset 7.
Proof.
  split; [done|].
  destruct (reset_outcome_by_key (mkCog 1 {[ "7" := [] ]} ∅ []) (mkCtx None 55 7) None)
    as (_ & _ & Hempty & _).
  by apply Hempty.
Defined.

(** C7. In a guild, once add-channel has confirmed a channel, that
    guild and channel are allowed; once remove-channel has run without
    a store error, whether or not the channel was listed, they are not. *)
Theorem add_remove_channel_allowed (st : Cog) (ctx : Ctx) (channel : option N)
    (g : N) (now : string) (db_raises : bool) :
  ctx_guild ctx = Some g →
  ((add_channel db_raises now st ctx channel).2
   = NowChatting (default (ctx_channel ctx) channel) →
   is_channel_allowed (add_channel db_raises now st ctx channel).1
     (pretty g) (pretty (default (ctx_channel ctx) channel)) = true)
  ∧ ((remove_channel db_raises st ctx channel).2 ≠ ErrorRemoving →
     is_channel_allowed (remove_channel db_raises st ctx channel).1
       (pretty g) (pretty (default (ctx_channel ctx) channel)) = false)
  ∧ (db_raises = false →
     (add_channel db_raises now st ctx channel).2
     = NowChatting (default (ctx_channel ctx) channel)
     ∧ (remove_channel db_raises
          (add_channel db_raises now st ctx channel).1 ctx channel).2
       = NoLongerChatting (default (ctx_channel ctx) channel)).
Proof.
  intros Hg. unfold add_channel, remove_channel, is_channel_allowed.
  rewrite Hg. destruct db_raises; simpl.
  - by split_and!.
  - rewrite lookup_insert_eq, lookup_delete_eq. split_and!; [|done|done].
    intros _. apply bool_decide_eq_true_2. by eexists.
Qed.

Lemma add_remove_channel_allowed_witness :
  ctx_guild (mkCtx (Some 9%N) 55 7) = Some 9%N
  ∧ is_channel_allowed
      (add_channel false "2024-01-01T00:00:00" (init 1) (mkCtx (Some 9%N) 55 7) None).1
      "9" "55" = true.
Proof.
  split; [done|].
  destruct (add_remove_channel_allowed (init 1) (mkCtx (Some 9%N) 55 7) None 9
              "2024-01-01T00:00:00" false eq_refl) as [Hadd _].
  by apply Hadd.
Defined.

(** C10. For a direct message (no guild) from another user, the store
    gains a usage row exactly when the reply was sent and the insert did
    not raise; that row has ["DM"] as guild id, the channel id, and the
    lengths of the cleaned input and of the response. *)
Theorem dm_usage_row (e : Env) (st : Cog) (m : Message) :
  msg_is_dm m = true → msg_guild m = None → msg_author m ≠ bot_user_id st →
  usage_stats (on_message e st m).1
  = usage_stats st
    ++ (if reply_raises e || store_raises e then []
        else [mkUsage (pretty (msg_author m)) "DM" (pretty (msg_channel m)) (clock e)
                (String.length (clean_content (bot_user_id st) (msg_content m)))
                (String.length (call_groq_api e (build_prompt st m).2))]).
Proof.
  intros Hdm Hguild Hother.
  unfold on_message. rewrite decide_False, Hdm by done.
  unfold process_message. rewrite Hguild.
  destruct (build_prompt st m) as [h1 ms]. simpl.
  destruct (reply_raises e), (store_raises e); simpl; by rewrite ?app_nil_r.
Qed.

Lemma dm_usage_row_witness :
  msg_is_dm hi_dm = true ∧ msg_guild hi_dm = None
  ∧ msg_author hi_dm ≠ bot_user_id (init 1)
  ∧ usage_stats (on_message env_ok (init 1) hi_dm).1
    = [mkUsage "7" "DM" "55" "2024-01-01T00:00:00" 2 4].
Proof.
  split_and!; [done|done|done|].
  assert (msg_author hi_dm ≠ bot_user_id (init 1)) as Hother by done.
  exact (dm_usage_row env_ok (init 1) hi_dm eq_refl eq_refl Hother).
Defined.

(** * Further properties of the cog *)

(** ** What each operation leaves alone *)

Section Frames.

Implicit Types (st : Cog) (m : Message) (e : Env) (a : Action).

Lemma lookup_ensure_ne uid uid' (h : gmap string (list Turn)) :
  uid ≠ uid' → ensure_window uid h !! uid' = h !! uid'.
Proof.
  intros Hne. unfold ensure_window.
  destruct (h !! uid); [done|by rewrite lookup_insert_ne].
Qed.

Lemma process_message_other e st m uid :
  uid ≠ pretty (msg_author m) →
  conversation_history (process_message e st m).1 !! uid
  = conversation_history st !! uid.
Proof.
  intros Hne. rewrite process_message_history.
  assert ((build_prompt st m).1 !! uid = conversation_history st !! uid) as Hbuild.
  { unfold build_prompt. simpl.
    by rewrite lookup_remember_ne, lookup_ensure_ne. }
  destruct (reply_raises e); [done|].
  by rewrite lookup_remember_ne.
Qed.

Lemma process_message_allowed e st m :
  allowed_channels (process_message e st m).1 = allowed_channels st.
Proof.
  unfold process_message. destruct (build_prompt st m) as [h1 ms].
  by destruct (reply_raises e), (store_raises e).
Qed.

Lemma process_message_usage e st m :
  usage_stats (process_message e st m).1
  = usage_stats st
    ++ (if reply_raises e || store_raises e then []
        else [mkUsage (pretty (msg_author m))
                (match msg_guild m with Some g => pretty g | None => "DM" end)
                (pretty (msg_channel m)) (clock e)
                (String.length (clean_content (bot_user_id st) (msg_content m)))
                (String.length (call_groq_api e (build_prompt st m).2))]).
Proof.
  unfold process_message. destruct (build_prompt st m) as [h1 ms]. simpl.
  destruct (reply_raises e), (store_raises e); simpl; by rewrite ?app_nil_r.
Qed.

Lemma on_message_usage e st m :
  ∃ rows, usage_stats (on_message e st m).1 = usage_stats st ++ rows
          ∧ length rows ≤ 1.
Proof.
  destruct (on_message_cases e st m) as [[Hst _]|Heq].
  - exists []. rewrite Hst, app_nil_r. split; [done|simpl; lia].
  - rewrite Heq, process_message_usage. eexists. split; [done|].
    destruct (_ || _); simpl; lia.
Qed.

Lemma step_usage st a :
  ∃ rows, usage_stats (step st a) = usage_stats st ++ rows
          ∧ length rows ≤ (if is_on_message a then 1 else 0).
Proof.
  destruct a as [e m|f now ctx ch|f ctx ch|ctx t]; simpl.
  - apply on_message_usage.
  - exists []. rewrite app_nil_r. split; [|done].
    unfold add_channel. destruct (ctx_guild ctx); [|done]. by destruct f.
  - exists []. rewrite app_nil_r. split; [|done].
    unfold remove_channel. destruct (ctx_guild ctx); [|done]. by destruct f.
  - exists []. rewrite app_nil_r. split; [|done].
    unfold reset_history. by destruct (_ !! _).
Qed.

Lemma step_history_keys st a uid :
  is_Some (conversation_history st !! uid) →
  is_Some (conversation_history (step st a) !! uid).
Proof.
  intros Hkey. destruct a as [e m|f now ctx ch|f ctx ch|ctx t]; simpl.
  - destruct (on_message_cases e st m) as [[-> _] | ->]; [done|].
    destruct (decide (uid = pretty (msg_author m))) as [->|Hne].
    + rewrite process_message_history.
      destruct (reply_raises e); unfold build_prompt, remember; simpl;
        by rewrite lookup_insert_eq.
    + by rewrite process_message_other.
  - unfold add_channel. destruct (ctx_guild ctx); [|done]. by destruct f.
  - unfold remove_channel. destruct (ctx_guild ctx); [|done]. by destruct f.
  - unfold reset_history.
    destruct (conversation_history st !! pretty (default (ctx_author ctx) t));
      [|done].
    simpl. destruct (decide (pretty (default (ctx_author ctx) t) = uid)) as [->|Hne].
    + by rewrite lookup_insert_eq.
    + by rewrite lookup_insert_ne.
Qed.

End Frames.

(** X1. Handling a message touches the window of its author only, and a
    reset the window of its target only: every other user's entry in the
    history is what it was. *)
Theorem other_windows_untouched (e : Env) (st : Cog) (m : Message) (ctx : Ctx)
    (target : option N) (u : N) :
  (u ≠ msg_author m →
   conversation_history (on_message e st m).1 !! pretty u
   = conversation_history st !! pretty u)
  ∧ (u ≠ default (ctx_author ctx) target →
     conversation_history (reset_history st ctx target).1 !! pretty u
     = conversation_history st !! pretty u).
Proof.
  split; intros Hne.
  - destruct (on_message_cases e st m) as [[-> _] | ->]; [done|].
    apply process_message_other. intros Heq. by apply Hne, pretty_N_inj.
  - unfold reset_history.
    destruct (conversation_history st !! pretty (default (ctx_author ctx) target));
      [|done].
    simpl. apply lookup_insert_ne. intros Heq. apply Hne. symmetry.
    by apply pretty_N_inj.
Qed.

Lemma other_windows_untouched_witness :
  8%N ≠ msg_author hi_dm
  ∧ conversation_history
      (on_message env_ok (mkCog 1 {[ "8" := [mkTurn user "yo"] ]} ∅ []) hi_dm).1
      !! pretty 8%N
    = Some [mkTurn user "yo"].
Proof.
  split; [done|].
  destruct (other_windows_untouched env_ok
              (mkCog 1 {[ "8" := [mkTurn user "yo"] ]} ∅ []) hi_dm
              (mkCtx None 55 7) None 8) as [Hmsg _].
  rewrite Hmsg; done.
Defined.

(** X2. The usage table is append-only: along any run the rows already
    stored stay in place at the front, and at most one row is added per
    inbound message (none by any command). *)
Theorem usage_append_only (st : Cog) (actions : list Action) :
  usage_stats st `prefix_of` usage_stats (run st actions)
  ∧ length (usage_stats (run st actions))
    ≤ length (usage_stats st) + length (filter (λ a, is_on_message a) actions).
Proof.
  unfold run. revert st.
  induction actions as [|a actions IH]; intros st; cbn [foldl].
  - split; [reflexivity|lia].
  - destruct (IH (step st a)) as [Hpre Hlen].
    destruct (step_usage st a) as (rows & Hrows & Hone).
    split.
    + etrans; [|exact Hpre]. rewrite Hrows. by apply prefix_app_r.
    + rewrite Hrows, length_app in Hlen. rewrite filter_cons.
      destruct (is_on_message a); simpl in *; lia.
Qed.

(** X3. A user's key, once in the history, stays there along any run: a
    reset empties the window but never removes the entry. *)
Theorem history_keys_persist (st : Cog) (actions : list Action) (uid : string) :
  is_Some (conversation_history st !! uid) →
  is_Some (conversation_history (run st actions) !! uid).
Proof.
  unfold run. revert st.
  induction actions as [|a actions IH]; intros st Hkey; simpl; [done|].
  by apply IH, step_history_keys.
Qed.

Lemma history_keys_persist_witness :
  is_Some (conversation_history (mkCog 1 {[ "7" := [mkTurn user "hi"] ]} ∅ []) !! "7")
  ∧ is_Some (conversation_history
               (run (mkCog 1 {[ "7" := [mkTurn user "hi"] ]} ∅ [])
                  [ResetHistory (mkCtx None 55 7) None; OnMessage env_ok hi_dm]) !! "7").
Proof.
  assert (is_Some (conversation_history
                     (mkCog 1 {[ "7" := [mkTurn user "hi"] ]} ∅ []) !! "7")) as Hkey
    by (by eexists).
  split; [exact Hkey|].
  exact (history_keys_persist _
           [ResetHistory (mkCtx None 55 7) None; OnMessage env_ok hi_dm] "7" Hkey).
Defined.

(** X4. Neither handling a message nor resetting a history changes the
    allow-list: only add-channel and remove-channel write to it. *)
Theorem allow_list_written_by_commands_only (e : Env) (st : Cog) (m : Message)
    (ctx : Ctx) (target : option N) :
  allowed_channels (on_message e st m).1 = allowed_channels st
  ∧ allowed_channels (reset_history st ctx target).1 = allowed_channels st.
Proof.
  split.
  - destruct (on_message_cases e st m) as [[-> _] | ->]; [done|].
    apply process_message_allowed.
  - unfold reset_history. by destruct (_ !! _).
Qed.

(** ** Cleaning the text *)

Section Cleaning.

Lemma app_empty_l (s : string) : "" +:+ s = s.
Proof. done. Qed.

Lemma length_rev_app (s1 s2 : string) :
  String.length (String.rev_app s1 s2) = String.length s1 + String.length s2.
Proof.
  revert s2. induction s1 as [|c s1 IH]; intros s2; simpl; [done|].
  rewrite IH. simpl. lia.
Qed.

Lemma length_rev (s : string) : String.length (String.rev s) = String.length s.
Proof. unfold String.rev. rewrite length_rev_app. simpl. lia. Qed.

Lemma length_lstrip (s : string) : String.length (Py.lstrip s) ≤ String.length s.
Proof.
  induction s as [|c s IH]; simpl; [done|].
  destruct (Py.isspace c); simpl; lia.
Qed.

Lemma length_strip (s : string) : String.length (Py.strip s) ≤ String.length s.
Proof.
  unfold Py.strip, Py.rstrip. rewrite length_rev.
  etrans; [apply length_lstrip|]. rewrite length_rev. apply length_lstrip.
Qed.

Lemma length_replace_scan (old : string) (k : nat) (s : string) :
  String.length (Py.replace_scan old "" k s) ≤ String.length s.
Proof.
  revert k. induction s as [|c s IH]; intros k; simpl; [done|].
  destruct k as [|k].
  - destruct (Py.startswith old (String c s)).
    + rewrite app_empty_l. specialize (IH (String.length old - 1)). lia.
    + simpl. specialize (IH 0). lia.
  - specialize (IH k). lia.
Qed.

Lemma intersperse_all_empty (s : string) : Py.intersperse_all "" s = s.
Proof. induction s as [|c s IH]; simpl; [done|]. by rewrite app_empty_l, IH. Qed.

Lemma length_replace (old s : string) :
  String.length (Py.replace old "" s) ≤ String.length s.
Proof.
  destruct old as [|c old]; simpl.
  - by rewrite intersperse_all_empty.
  - apply length_replace_scan.
Qed.

Lemma startswith_refl (s : string) : Py.startswith s s = true.
Proof. induction s as [|c s IH]; simpl; [done|]. by rewrite decide_True. Qed.

(** A scan that still has the whole rest to pass over yields nothing. *)
Lemma replace_scan_skip_all (old new : string) (k : nat) (s : string) :
  String.length s ≤ k → Py.replace_scan old new k s = "".
Proof.
  revert k. induction s as [|c s IH]; intros k Hk; simpl; [done|].
  simpl in Hk. destruct k as [|k]; [lia|]. apply IH. lia.
Qed.

Lemma replace_whole (old : string) : old ≠ "" → Py.replace old "" old = "".
Proof.
  destruct old as [|c old]; [done|]. intros _.
  unfold Py.replace. cbn [Py.replace_scan].
  rewrite startswith_refl, app_empty_l.
  apply replace_scan_skip_all. simpl. lia.
Qed.

(** Where the first character of [old] does not occur, nothing matches. *)
Lemma replace_scan_absent (c : Ascii.ascii) (old new s : string) :
  all_chars (λ x, negb (bool_decide (x = c))) s = true →
  Py.replace_scan (String c old) new 0 s = s.
Proof.
  induction s as [|x s IH]; simpl; [done|].
  intros [Hx Hs]%andb_true_iff.
  apply negb_true_iff, bool_decide_eq_false in Hx.
  rewrite decide_False by done. by rewrite IH.
Qed.

Lemma mention_token_cons (bot : N) :
  mention_token bot
  = String (Ascii.ascii_of_N 60) (String (Ascii.ascii_of_N 64) (pretty bot +:+ ">")).
Proof. done. Qed.

End Cleaning.

(** X5. Cleaning never lengthens the text, so the [message_length] of a
    usage row written for a message is at most the length of the
    message's raw content. *)
Theorem clean_content_no_longer (bot : N) (e : Env) (st : Cog) (m : Message)
    (rows : list UsageRow) :
  usage_stats (on_message e st m).1 = usage_stats st ++ rows →
  String.length (clean_content bot (msg_content m)) ≤ String.length (msg_content m)
  ∧ Forall (λ r, message_length r ≤ String.length (msg_content m)) rows.
Proof.
  assert (∀ b, String.length (clean_content b (msg_content m))
               ≤ String.length (msg_content m)) as Hclean.
  { intros b. unfold clean_content.
    etrans; [apply length_strip|apply length_replace]. }
  intros Hrows. split; [done|].
  destruct (on_message_cases e st m) as [[Hst _]|Heq].
  - rewrite Hst in Hrows.
    assert (rows = []) as ->; [|done].
    apply (inj (app (usage_stats st))). by rewrite app_nil_r.
  - rewrite Heq, process_message_usage in Hrows.
    apply (inj (app (usage_stats st))) in Hrows as <-.
    destruct (_ || _); [done|]. repeat constructor. simpl. done.
Qed.

Lemma clean_content_no_longer_witness :
  usage_stats (on_message env_ok (init 1) hi_dm).1
  = usage_stats (init 1) ++ [mkUsage "7" "DM" "55" "2024-01-01T00:00:00" 2 4]
  ∧ Forall (λ r, message_length r ≤ String.length (msg_content hi_dm))
      [mkUsage "7" "DM" "55" "2024-01-01T00:00:00" 2 4].
Proof.
  assert (usage_stats (on_message env_ok (init 1) hi_dm).1
          = usage_stats (init 1) ++ [mkUsage "7" "DM" "55" "2024-01-01T00:00:00" 2 4])
    as Hrows by done.
  split; [exact Hrows|].
  exact (proj2 (clean_content_no_longer 1 env_ok (init 1) hi_dm _ Hrows)).
Defined.

(** X6. A message that consists of the bot's mention alone is cleaned to the
    empty text, and is still sent to the completion endpoint, as a user
    turn with empty content. *)
Theorem mention_only_message (e : Env) (st : Cog) (m : Message) :
  msg_content m = mention_token (bot_user_id st) →
  clean_content (bot_user_id st) (msg_content m) = ""
  ∧ api_calls (process_message e st m).2
    = [system_prompt
       :: append_turn (window (pretty (msg_author m)) (conversation_history st))
            (mkTurn user "")].
Proof.
  intros Hraw.
  assert (clean_content (bot_user_id st) (msg_content m) = "") as Hclean.
  { unfold clean_content. rewrite Hraw, replace_whole; [done|].
    by rewrite mention_token_cons. }
  split; [done|].
  by rewrite process_message_api_calls, build_prompt_messages,
    build_prompt_window, Hclean.
Qed.

Lemma mention_only_message_witness :
  msg_content (mkMessage 7 true None 55 true "<@1>") = mention_token (bot_user_id (init 1))
  ∧ api_calls (process_message env_ok (init 1) (mkMessage 7 true None 55 true "<@1>")).2
    = [[system_prompt; mkTurn user ""]].
Proof.
  split; [done|].
  exact (proj2 (mention_only_message env_ok (init 1)
                  (mkMessage 7 true None 55 true "<@1>") eq_refl)).
Defined.

(** X7. Text without the character ["<"] holds no mention token: cleaning
    it only strips the surrounding white space. *)
Theorem clean_content_without_mention (bot : N) (raw : string) :
  all_chars (λ c, negb (starts_mention c)) raw = true →
  clean_content bot raw = Py.strip raw.
Proof.
  intros Hraw. unfold clean_content. rewrite mention_token_cons.
  unfold Py.replace. rewrite replace_scan_absent; [done|].
  clear bot. induction raw as [|c raw IH]; simpl in *; [done|].
  apply andb_true_iff in Hraw as [Hc Hraw].
  apply andb_true_iff. split; [|by apply IH].
  apply negb_true_iff, bool_decide_eq_false.
  apply negb_true_iff, bool_decide_eq_false in Hc. by intros ->.
Qed.

Lemma clean_content_without_mention_witness :
  all_chars (λ c, negb (starts_mention c)) "  hello there " = true
  ∧ clean_content 1 "  hello there " = "hello there".
Proof.
  split; [done|].
  exact (clean_content_without_mention 1 "  hello there " eq_refl).
Defined.

(** ** The prompt and the exchange *)

Section Exchange.

Implicit Types (st : Cog) (m : Message) (e : Env) (w : list Turn) (t : Turn).

(** A trimmed window still ends with what was appended last. *)
Lemma most_recent_snoc {A} (n : nat) (l k : list A) :
  length k ≤ n →
  most_recent n (l ++ k) = most_recent (n - length k) l ++ k.
Proof.
  intros Hk. unfold most_recent. rewrite length_app.
  rewrite drop_app_le by lia. f_equal. f_equal. lia.
Qed.

Lemma append_turn_snoc w t :
  append_turn w t = most_recent (max_history - 1) w ++ [t].
Proof.
  rewrite append_turn_most_recent.
  apply (most_recent_snoc max_history w [t]). unfold max_history. simpl. lia.
Qed.

Lemma append_turn_twice w t1 t2 :
  append_turn (append_turn w t1) t2 = most_recent (max_history - 2) w ++ [t1; t2].
Proof.
  rewrite !append_turn_most_recent.
  rewrite (most_recent_app max_history max_history (w ++ [t1]) [t2])
    by (unfold max_history; simpl; lia).
  rewrite <- app_assoc. simpl.
  apply (most_recent_snoc max_history w [t1; t2]). unfold max_history. simpl. lia.
Qed.

Lemma reset_history_window st ctx target :
  window (pretty (default (ctx_author ctx) target))
    (conversation_history (reset_history st ctx target).1) = [].
Proof.
  unfold reset_history, window.
  destruct (conversation_history st !! _) eqn:E; simpl.
  - by rewrite lookup_insert_eq.
  - by rewrite E.
Qed.

Lemma reset_history_bot st ctx target :
  bot_user_id (reset_history st ctx target).1 = bot_user_id st.
Proof. unfold reset_history. by destruct (_ !! _). Qed.

End Exchange.

(** X8. Whatever the state, the request ends with the user turn of the
    message being handled (trimming never drops it), and holds between
    two and [1 + max_history] turns. *)
Theorem prompt_ends_with_new_turn (st : Cog) (m : Message) :
  last (build_prompt st m).2
  = Some (mkTurn user (clean_content (bot_user_id st) (msg_content m)))
  ∧ 2 ≤ length (build_prompt st m).2 ≤ 1 + max_history.
Proof.
  rewrite build_prompt_messages, build_prompt_window, append_turn_snoc.
  split.
  - by rewrite app_comm_cons, last_snoc.
  - cbn [length]. rewrite length_app, most_recent_length. cbn [length].
    unfold max_history. lia.
Qed.

(** X9. When the endpoint answers 200 with a text and the reply is sent,
    the user receives that text unchanged, and the author's window
    becomes the last [max_history - 2] entries of the old window followed
    by the new user turn and the assistant turn with that text. *)
Theorem successful_exchange (e : Env) (st : Cog) (m : Message)
    (raw text : string) :
  post e (build_prompt st m).2 = Responded 200 raw (Some text) →
  reply_raises e = false →
  head (replies (process_message e st m).2) = Some text
  ∧ window (pretty (msg_author m)) (conversation_history (process_message e st m).1)
    = most_recent (max_history - 2)
        (window (pretty (msg_author m)) (conversation_history st))
      ++ [mkTurn user (clean_content (bot_user_id st) (msg_content m));
          mkTurn assistant text].
Proof.
  intros Hpost Hreply.
  assert (call_groq_api e (build_prompt st m).2 = text) as Hcall.
  { unfold call_groq_api. by rewrite Hpost. }
  rewrite process_message_replies, process_message_history, Hreply, Hcall.
  split; [done|].
  by rewrite window_remember, build_prompt_window, append_turn_twice.
Qed.

Lemma successful_exchange_witness :
  post env_ok (build_prompt (init 1) hi_dm).2 = Responded 200 "{...}" (Some "hey!")
  ∧ reply_raises env_ok = false
  ∧ window "7" (conversation_history (process_message env_ok (init 1) hi_dm).1)
    = [mkTurn user "hi"; mkTurn assistant "hey!"].
Proof.
  split_and!; [done|done|].
  exact (proj2 (successful_exchange env_ok (init 1) hi_dm "{...}" "hey!"
                  eq_refl eq_refl)).
Defined.

(** X10. After a reset of a user, that user's next message is sent with no
    earlier turn: the request is the system turn and the new user turn. *)
Theorem prompt_after_reset (st : Cog) (ctx : Ctx) (target : option N) (m : Message) :
  msg_author m = default (ctx_author ctx) target →
  (build_prompt (reset_history st ctx target).1 m).2
  = [system_prompt; mkTurn user (clean_content (bot_user_id st) (msg_content m))].
Proof.
  intros Hauthor.
  rewrite build_prompt_messages, build_prompt_window, Hauthor.
  by rewrite reset_history_window, reset_history_bot.
Qed.

Lemma prompt_after_reset_witness :
  msg_author hi_dm = default (ctx_author (mkCtx None 55 7)) None
  ∧ (build_prompt
       (reset_history
          (mkCog 1 {[ "7" := [mkTurn user "a"; mkTurn assistant "b"] ]} ∅ [])
          (mkCtx None 55 7) None).1 hi_dm).2
    = [system_prompt; mkTurn user "hi"].
Proof.
  split; [done|].
  exact (prompt_after_reset
           (mkCog 1 {[ "7" := [mkTurn user "a"; mkTurn assistant "b"] ]} ∅ [])
           (mkCtx None 55 7) None hi_dm eq_refl).
Defined.

(** X11. When sending the reply raises, no usage row is written and
    the user turn stays in the window without an answer: the same
    author's next request ends with two user turns in a row. *)
Theorem reply_failure_leaves_user_turn (e : Env) (st : Cog) (m m2 : Message) :
  reply_raises e = true → msg_author m2 = msg_author m →
  usage_stats (process_message e st m).1 = usage_stats st
  ∧ window (pretty (msg_author m)) (conversation_history (process_message e st m).1)
    = most_recent (max_history - 1)
        (window (pretty (msg_author m)) (conversation_history st))
      ++ [mkTurn user (clean_content (bot_user_id st) (msg_content m))]
  ∧ (build_prompt (process_message e st m).1 m2).2
    = system_prompt
      :: most_recent (max_history - 2)
           (window (pretty (msg_author m)) (conversation_history st))
      ++ [mkTurn user (clean_content (bot_user_id st) (msg_content m));
          mkTurn user (clean_content (bot_user_id st) (msg_content m2))].
Proof.
  intros Hreply Hauthor. split_and!.
  - rewrite process_message_usage, Hreply. apply app_nil_r.
  - rewrite process_message_history, Hreply.
    by rewrite build_prompt_window, append_turn_snoc.
  - rewrite build_prompt_messages, build_prompt_window, Hauthor.
    rewrite process_message_history, process_message_bot, Hreply.
    by rewrite build_prompt_window, append_turn_twice.
Qed.

Lemma reply_failure_leaves_user_turn_witness :
  reply_raises (mkEnv (λ _, PostRaised) true false "") = true
  ∧ msg_author (mkMessage 7 true None 55 false "again?") = msg_author hi_dm
  ∧ (build_prompt
       (process_message (mkEnv (λ _, PostRaised) true false "") (init 1) hi_dm).1
       (mkMessage 7 true None 55 false "again?")).2
    = [system_prompt; mkTurn user "hi"; mkTurn user "again?"].
Proof.
  split_and!; [done|done|].
  destruct (reply_failure_leaves_user_turn
              (mkEnv (λ _, PostRaised) true false "") (init 1) hi_dm
              (mkMessage 7 true None 55 false "again?") eq_refl eq_refl)
    as (_ & _ & Hprompt).
  exact Hprompt.
Defined.

(** X12. When the reply is sent but writing the usage row raises, the
    exchange stays in the window, which ends with the user turn and the
    assistant turn of that reply, and the usage table is unchanged. *)
Theorem store_failure_after_reply (e : Env) (st : Cog) (m : Message) :
  reply_raises e = false → store_raises e = true →
  usage_stats (process_message e st m).1 = usage_stats st
  ∧ window (pretty (msg_author m)) (conversation_history (process_message e st m).1)
    = most_recent (max_history - 2)
        (window (pretty (msg_author m)) (conversation_history st))
      ++ [mkTurn user (clean_content (bot_user_id st) (msg_content m));
          mkTurn assistant (call_groq_api e (build_prompt st m).2)].
Proof.
  intros Hreply Hstore. split.
  - rewrite process_message_usage, Hreply, Hstore. apply app_nil_r.
  - rewrite process_message_history, Hreply.
    by rewrite window_remember, build_prompt_window, append_turn_twice.
Qed.

Lemma store_failure_after_reply_witness :
  reply_raises (mkEnv (λ _, Responded 200 "" (Some "hey!")) false true "") = false
  ∧ store_raises (mkEnv (λ _, Responded 200 "" (Some "hey!")) false true "") = true
  ∧ usage_stats (process_message
                   (mkEnv (λ _, Responded 200 "" (Some "hey!")) false true "")
                   (init 1) hi_dm).1 = []
  ∧ window "7"
      (conversation_history
         (process_message
            (mkEnv (λ _, Responded 200 "" (Some "hey!")) false true "")
            (init 1) hi_dm).1)
    = [mkTurn user "hi"; mkTurn assistant "hey!"].
Proof.
  split_and!; [done|done| |].
  - exact (proj1 (store_failure_after_reply
                    (mkEnv (λ _, Responded 200 "" (Some "hey!")) false true "")
                    (init 1) hi_dm eq_refl eq_refl)).
  - exact (proj2 (store_failure_after_reply
                    (mkEnv (λ _, Responded 200 "" (Some "hey!")) false true "")
                    (init 1) hi_dm eq_refl eq_refl)).
Defined.

(** ** The allow-list *)

Section AllowList.

Implicit Types (st : Cog) (ctx : Ctx) (m : Message) (e : Env).

Lemma set_allowed_id st : set_allowed st (allowed_channels st) = st.
Proof. by destruct st. Qed.

Lemma is_channel_allowed_lookup st g c :
  is_channel_allowed st g c = true ↔ is_Some (allowed_channels st !! (g, c)).
Proof. unfold is_channel_allowed. apply bool_decide_eq_true. Qed.

Lemma is_channel_allowed_none st g c :
  is_channel_allowed st g c = false ↔ allowed_channels st !! (g, c) = None.
Proof.
  unfold is_channel_allowed. rewrite bool_decide_eq_false.
  by rewrite eq_None_not_Some.
Qed.

Lemma add_channel_state now st ctx channel g :
  ctx_guild ctx = Some g →
  add_channel false now st ctx channel
  = (set_allowed st
       (<[(pretty g, pretty (default (ctx_channel ctx) channel))
          := mkAllowed (pretty (ctx_author ctx)) now]> (allowed_channels st)),
     NowChatting (default (ctx_channel ctx) channel)).
Proof. intros Hg. unfold add_channel. by rewrite Hg. Qed.

Lemma remove_channel_state st ctx channel g :
  ctx_guild ctx = Some g →
  (remove_channel false st ctx channel).1
  = set_allowed st
      (delete (pretty g, pretty (default (ctx_channel ctx) channel))
         (allowed_channels st)).
Proof. intros Hg. unfold remove_channel. by rewrite Hg. Qed.

Lemma pretty_pair_ne (g c g' c' : N) :
  (g', c') ≠ (g, c) → (pretty g, pretty c) ≠ (pretty g' : string, pretty c' : string).
Proof.
  intros Hne [= Hg Hc]. apply Hne.
  by rewrite (pretty_N_inj _ _ Hg), (pretty_N_inj _ _ Hc).
Qed.

Lemma NoDup_omap {A B} (f : A → option B) (l : list A) :
  NoDup l →
  (∀ x y z, x ∈ l → y ∈ l → f x = Some z → f y = Some z → x = y) →
  NoDup (omap f l).
Proof.
  induction 1 as [|x l Hx Hl IH]; intros Hinj; simpl; [constructor|].
  destruct (f x) as [z|] eqn:Hfx.
  - constructor.
    + intros (y & Hy & Hfy)%list_elem_of_omap.
      apply Hx. rewrite (Hinj x y z); [done|by left|by right|done|done].
    + apply IH. intros ??? ??. apply Hinj; by right.
  - apply IH. intros ??? ??. apply Hinj; by right.
Qed.

End AllowList.

(** X13. Add-channel is an upsert: adding a channel that is already allowed
    replaces its row (who added it, and when) and leaves one row for the
    pair, so doing it twice is the same as doing the second alone. *)
Theorem add_channel_twice (st : Cog) (ctx1 ctx2 : Ctx) (ch1 ch2 : option N)
    (now1 now2 : string) (g : N) :
  ctx_guild ctx1 = Some g → ctx_guild ctx2 = Some g →
  default (ctx_channel ctx1) ch1 = default (ctx_channel ctx2) ch2 →
  (add_channel false now2 (add_channel false now1 st ctx1 ch1).1 ctx2 ch2).1
  = (add_channel false now2 st ctx2 ch2).1
  ∧ allowed_channels (add_channel false now2 st ctx2 ch2).1
      !! (pretty g, pretty (default (ctx_channel ctx2) ch2))
    = Some (mkAllowed (pretty (ctx_author ctx2)) now2)
  ∧ size (allowed_channels (add_channel false now2 st ctx2 ch2).1)
    = if is_channel_allowed st (pretty g) (pretty (default (ctx_channel ctx2) ch2))
      then size (allowed_channels st) else S (size (allowed_channels st)).
Proof.
  intros Hg1 Hg2 Hch.
  rewrite (add_channel_state now1 st ctx1 ch1 g Hg1).
  rewrite !(add_channel_state now2 _ ctx2 ch2 g Hg2). simpl.
  rewrite Hch. unfold set_allowed. simpl. rewrite insert_insert_eq.
  split_and!; [done|by rewrite lookup_insert_eq|].
  destruct (is_channel_allowed st _ _) eqn:Hallowed.
  - apply is_channel_allowed_lookup in Hallowed as [row Hrow].
    by rewrite map_size_insert_Some.
  - apply is_channel_allowed_none in Hallowed.
    by rewrite map_size_insert_None.
Qed.

Lemma add_channel_twice_witness :
  ctx_guild (mkCtx (Some 9%N) 55 7) = Some 9%N
  ∧ ctx_guild (mkCtx (Some 9%N) 66 8) = Some 9%N
  ∧ default (ctx_channel (mkCtx (Some 9%N) 55 7)) None
    = default (ctx_channel (mkCtx (Some 9%N) 66 8)) (Some 55%N)
  ∧ allowed_channels
      (add_channel false "t2" (add_channel false "t1" (init 1)
                                 (mkCtx (Some 9%N) 55 7) None).1
         (mkCtx (Some 9%N) 66 8) (Some 55%N)).1
    = {[ ("9", "55") := mkAllowed "8" "t2" ]}.
Proof.
  split_and!; [done|done|done|].
  destruct (add_channel_twice (init 1) (mkCtx (Some 9%N) 55 7) (mkCtx (Some 9%N) 66 8)
              None (Some 55%N) "t1" "t2" 9 eq_refl eq_refl eq_refl) as [Htwice _].
  rewrite Htwice. done.
Defined.

(** X14. Remove-channel reports that it stopped chatting exactly when the
    channel was allowed, and that the channel was not in the list exactly
    when it was not; in the second case the store is left as it was. *)
Theorem remove_channel_reports (st : Cog) (ctx : Ctx) (channel : option N) (g : N) :
  ctx_guild ctx = Some g →
  ((remove_channel false st ctx channel).2
   = NoLongerChatting (default (ctx_channel ctx) channel)
   ↔ is_channel_allowed st (pretty g) (pretty (default (ctx_channel ctx) channel))
     = true)
  ∧ ((remove_channel false st ctx channel).2 = NotInAllowedList
     ↔ is_channel_allowed st (pretty g) (pretty (default (ctx_channel ctx) channel))
       = false)
  ∧ (is_channel_allowed st (pretty g) (pretty (default (ctx_channel ctx) channel))
     = false →
     (remove_channel false st ctx channel).1 = st).
Proof.
  intros Hg. rewrite (remove_channel_state st ctx channel g Hg).
  unfold remove_channel, is_channel_allowed. rewrite Hg. simpl.
  destruct (allowed_channels st !! _) as [row|] eqn:Hrow; simpl.
  - by split_and!.
  - split_and!; [done|done|].
    intros _. rewrite delete_id by done. apply set_allowed_id.
Qed.

Lemma remove_channel_reports_witness :
  ctx_guild (mkCtx (Some 9%N) 55 7) = Some 9%N
  ∧ is_channel_allowed (init 1) "9" "55" = false
  ∧ (remove_channel false (init 1) (mkCtx (Some 9%N) 55 7) None).2 = NotInAllowedList.
Proof.
  split_and!; [done|done|].
  destruct (remove_channel_reports (init 1) (mkCtx (Some 9%N) 55 7) None 9 eq_refl)
    as (_ & Hnot & _).
  by apply Hnot.
Defined.

(** X15. Add-channel and remove-channel act on their own (guild, channel)
    pair only: whether any other pair is allowed, in the same or another
    guild, is unchanged, also when the store raises. *)
Theorem allow_list_other_pairs (st : Cog) (ctx : Ctx) (channel : option N)
    (now : string) (db_raises : bool) (g g' c' : N) :
  ctx_guild ctx = Some g →
  (g', c') ≠ (g, default (ctx_channel ctx) channel) →
  is_channel_allowed (add_channel db_raises now st ctx channel).1 (pretty g') (pretty c')
  = is_channel_allowed st (pretty g') (pretty c')
  ∧ is_channel_allowed (remove_channel db_raises st ctx channel).1
      (pretty g') (pretty c')
    = is_channel_allowed st (pretty g') (pretty c').
Proof.
  intros Hg Hne. apply pretty_pair_ne in Hne.
  unfold add_channel, remove_channel, is_channel_allowed. rewrite Hg.
  destruct db_raises; simpl; [done|].
  by rewrite lookup_insert_ne, lookup_delete_ne.
Qed.

Lemma allow_list_other_pairs_witness :
  ctx_guild (mkCtx (Some 9%N) 55 7) = Some 9%N
  ∧ (10%N, 55%N) ≠ (9%N, default (ctx_channel (mkCtx (Some 9%N) 55 7)) None)
  ∧ is_channel_allowed
      (add_channel false "t" (init 1) (mkCtx (Some 9%N) 55 7) None).1 "10" "55"
    = false.
Proof.
  assert ((10%N, 55%N) ≠ (9%N, default (ctx_channel (mkCtx (Some 9%N) 55 7)) None))
    as Hne by done.
  split_and!; [done|exact Hne|].
  destruct (allow_list_other_pairs (init 1) (mkCtx (Some 9%N) 55 7) None "t" false
              9 10 55 eq_refl Hne) as [Hadd _].
  exact Hadd.
Defined.

(** X16. The allow-list governs dispatch: once add-channel has put a channel
    on the list, a message there from another user is processed without
    a mention; once remove-channel has taken it off, such a message is
    ignored. *)
Theorem dispatch_follows_allow_list (e : Env) (st : Cog) (ctx : Ctx)
    (channel : option N) (now : string) (g : N) (m : Message) :
  ctx_guild ctx = Some g →
  msg_is_dm m = false → msg_guild m = Some g →
  msg_channel m = default (ctx_channel ctx) channel →
  msg_author m ≠ bot_user_id st → msg_mentions_bot m = false →
  on_message e (add_channel false now st ctx channel).1 m
  = process_message e (add_channel false now st ctx channel).1 m
  ∧ on_message e (remove_channel false st ctx channel).1 m
    = ((remove_channel false st ctx channel).1, []).
Proof.
  intros Hg Hdm Hguild Hch Hother Hmention.
  rewrite (add_channel_state now st ctx channel g Hg).
  rewrite (remove_channel_state st ctx channel g Hg).
  unfold on_message, is_channel_allowed. simpl.
  rewrite !decide_False, Hdm, Hguild, Hmention, Hch by done. simpl.
  rewrite lookup_insert_eq, lookup_delete_eq.
  rewrite bool_decide_eq_true_2 by (by eexists).
  by rewrite bool_decide_eq_false_2 by (by intros [? ?]).
Qed.

Lemma dispatch_follows_allow_list_witness :
  ctx_guild (mkCtx (Some 9%N) 55 7) = Some 9%N
  ∧ msg_is_dm (mkMessage 7 false (Some 9%N) 55 false "hi") = false
  ∧ msg_author (mkMessage 7 false (Some 9%N) 55 false "hi") ≠ bot_user_id (init 1)
  ∧ on_message env_ok (init 1) (mkMessage 7 false (Some 9%N) 55 false "hi")
    = (init 1, [])
  ∧ replies (on_message env_ok
               (add_channel false "t" (init 1) (mkCtx (Some 9%N) 55 7) None).1
               (mkMessage 7 false (Some 9%N) 55 false "hi")).2
    = ["hey!"].
Proof.
  assert (msg_author (mkMessage 7 false (Some 9%N) 55 false "hi") ≠ bot_user_id (init 1))
    as Hother by done.
  split_and!; [done|done|exact Hother|done|].
  destruct (dispatch_follows_allow_list env_ok (init 1) (mkCtx (Some 9%N) 55 7) None
              "t" 9 (mkMessage 7 false (Some 9%N) 55 false "hi")
              eq_refl eq_refl eq_refl eq_refl Hother eq_refl) as [Hadd _].
  rewrite Hadd. done.
Defined.

(** X17. [get_allowed_channels] and [is_channel_allowed] agree: the channels
    listed for a guild are exactly those allowed in it, each once. *)
Theorem get_allowed_channels_agrees (st : Cog) (guild_id channel_id : string) :
  (channel_id ∈ get_allowed_channels st guild_id
   ↔ is_channel_allowed st guild_id channel_id = true)
  ∧ NoDup (get_allowed_channels st guild_id).
Proof.
  unfold get_allowed_channels. split.
  - rewrite is_channel_allowed_lookup, list_elem_of_omap. split.
    + intros ([[g c] row] & Hin & Hf). simpl in Hf.
      case_decide as Hgc; [|done]. simplify_eq.
      apply elem_of_map_to_list in Hin. by eexists.
    + intros [row Hrow]. exists ((guild_id, channel_id), row). split.
      * by apply elem_of_map_to_list.
      * simpl. by rewrite decide_True.
  - apply NoDup_omap; [apply NoDup_map_to_list|].
    intros [[g1 c1] r1] [[g2 c2] r2] c Hin1 Hin2 Hf1 Hf2. simpl in *.
    repeat case_decide; simplify_eq.
    apply elem_of_map_to_list in Hin1, Hin2. congruence.
Qed.

(** ** Ids as text and back *)

Section Ids.

Lemma digit_value_pretty_N_char (x : N) :
  (x < 10)%N → PyInt.digit_value (pretty_N_char x) = Some x.
Proof.
  intros Hx.
  assert (x = 0 ∨ x = 1 ∨ x = 2 ∨ x = 3 ∨ x = 4 ∨ x = 5 ∨ x = 6 ∨ x = 7
          ∨ x = 8 ∨ x = 9)%N as Hcases by lia.
  destruct_or!; by subst x.
Qed.

Lemma all_digits_pretty_N_go (x : N) (s : string) :
  all_chars is_digit s = true → all_chars is_digit (pretty_N_go x s) = true.
Proof.
  revert s. induction (N.lt_wf_0 x) as [x _ IH]; intros s Hs.
  destruct (decide (x = 0)%N) as [->|Hx]; [by rewrite pretty_N_go_0|].
  rewrite pretty_N_go_step by lia.
  apply IH; [apply N.div_lt; lia|].
  simpl. rewrite Hs, andb_true_r. unfold is_digit.
  rewrite digit_value_pretty_N_char; [done|]. apply N.mod_lt. lia.
Qed.

Lemma all_digits_pretty (n : N) : all_chars is_digit (pretty n) = true.
Proof.
  unfold pretty, pretty_N. case_decide; [done|].
  by apply all_digits_pretty_N_go.
Qed.

(** The guild id of a row written for a guild is never the ["DM"] of a
    direct message. *)
Lemma pretty_ne_DM (g : N) : pretty g ≠ "DM".
Proof.
  intros Heq. pose proof (all_digits_pretty g) as Hd.
  rewrite Heq in Hd. done.
Qed.

Lemma digits_pretty_N_go (x : N) :
  (0 < x)%N →
  ∃ k : nat, 0 < k ∧ (10 ^ N.of_nat (k - 1) ≤ x)%N
    ∧ ∀ s acc count flag,
        PyInt.digits acc count flag (pretty_N_go x s)
        = PyInt.digits (acc * 10 ^ N.of_nat k + x) (count + k) true s.
Proof.
  induction (N.lt_wf_0 x) as [x _ IH]; intros Hx.
  pose proof (N.div_mod x 10 ltac:(lia)) as Hdm.
  pose proof (N.mod_lt x 10 ltac:(lia)) as Hmod.
  destruct (decide (x `div` 10 = 0)%N) as [Hq|Hq].
  - exists 1. split_and!; [lia|simpl; lia|].
    intros s acc count flag.
    rewrite pretty_N_go_step, Hq, pretty_N_go_0 by done.
    cbn [PyInt.digits]. rewrite digit_value_pretty_N_char by done.
    rewrite Hq in Hdm. change (N.of_nat 1) with 1%N. rewrite N.pow_1_r.
    replace (count + 1) with (S count) by lia.
    replace (acc * 10 + x)%N with (acc * 10 + x `mod` 10)%N; [done|].
    clear -Hdm. revert Hdm. generalize (x `mod` 10)%N. intros. lia.
  - destruct (IH (x `div` 10)%N) as (k & Hk & Hlow & Hdigits);
      [apply N.div_lt; lia|lia|].
    exists (S k). split_and!; [lia| |].
    + replace (S k - 1) with (S (k - 1)) by lia.
      rewrite Nat2N.inj_succ, N.pow_succ_r'.
      revert Hlow. generalize (10 ^ N.of_nat (k - 1))%N. intros p Hlow.
      clear -Hdm Hmod Hlow. revert Hdm Hmod Hlow.
      generalize (x `div` 10)%N (x `mod` 10)%N. intros. lia.
    + intros s acc count flag.
      rewrite pretty_N_go_step, Hdigits by done.
      cbn [PyInt.digits]. rewrite digit_value_pretty_N_char by done.
      rewrite Nat2N.inj_succ, N.pow_succ_r'.
      replace (count + S k) with (S (count + k)) by lia.
      generalize (10 ^ N.of_nat k)%N. intros p.
      replace (acc * (10 * p) + x)%N
        with ((acc * p + x `div` 10) * 10 + x `mod` 10)%N; [done|].
      clear -Hdm. revert Hdm.
      generalize (x `div` 10)%N (x `mod` 10)%N. intros. lia.
Qed.

Lemma is_digit_not_space (c : Ascii.ascii) :
  is_digit c = true → PyInt.isspace c = false.
Proof.
  unfold is_digit, PyInt.digit_value, PyInt.isspace.
  destruct (_ && _) eqn:Hd; [|done]. intros _.
  apply andb_true_iff in Hd as [H1%N.leb_le H2%N.leb_le].
  repeat (apply orb_false_iff; split);
    try apply andb_false_iff; rewrite ?N.leb_gt, ?N.eqb_neq; try right; lia.
Qed.

Lemma lskip_all_digits (s : string) :
  all_chars is_digit s = true → PyInt.lskip s = s.
Proof.
  destruct s as [|c s]; simpl; [done|].
  intros [Hc _]%andb_true_iff. by rewrite is_digit_not_space.
Qed.

Lemma all_chars_rev_app (P : Ascii.ascii → bool) (s1 s2 : string) :
  all_chars P (String.rev_app s1 s2) = all_chars P s1 && all_chars P s2.
Proof.
  revert s2. induction s1 as [|c s1 IH]; intros s2; simpl; [done|].
  rewrite IH. simpl. by destruct (P c), (all_chars P s1).
Qed.

Lemma app_empty_r (s : string) : s +:+ "" = s.
Proof. induction s as [|c s IH]; [done|]. change (String c (s +:+ "") = String c s). by rewrite IH. Qed.

Lemma rev_app_rev_app (s1 s2 s3 : string) :
  String.rev_app (String.rev_app s1 s2) s3 = String.rev_app s2 (s1 +:+ s3).
Proof.
  revert s2 s3. induction s1 as [|c s1 IH]; intros s2 s3; simpl; [done|].
  by rewrite IH.
Qed.

Lemma rev_involutive (s : string) : String.rev (String.rev s) = s.
Proof. unfold String.rev. rewrite rev_app_rev_app. simpl. apply app_empty_r. Qed.

Lemma skip_all_digits (s : string) :
  all_chars is_digit s = true → PyInt.skip s = s.
Proof.
  intros Hs. unfold PyInt.skip.
  rewrite (lskip_all_digits s Hs), lskip_all_digits; [apply rev_involutive|].
  unfold String.rev. by rewrite all_chars_rev_app, Hs.
Qed.

Lemma int_all_digits (s : string) :
  all_chars is_digit s = true →
  PyInt.int s = Z.of_N <$> PyInt.digits 0 0 false s.
Proof.
  intros Hs. unfold PyInt.int. rewrite (skip_all_digits s Hs).
  destruct s as [|c r]; [done|].
  simpl in Hs. apply andb_true_iff in Hs as [Hc _].
  repeat case_decide; subst; done.
Qed.

(** [int(str(n))] is [n] for an id; ids are below [2 ^ 64]. *)
Lemma int_pretty (n : N) :
  (n < 2 ^ 64)%N → PyInt.int (pretty n) = Some (Z.of_N n).
Proof.
  intros Hn. rewrite int_all_digits by apply all_digits_pretty.
  unfold pretty, pretty_N. case_decide as Hz; [by subst|].
  destruct (digits_pretty_N_go n) as (k & Hk & Hlow & Hdigits); [lia|].
  rewrite Hdigits. cbn [PyInt.digits].
  assert (k ≤ PyInt.max_str_digits) as Hmax.
  { assert (N.of_nat (k - 1) < 20)%N; [|unfold PyInt.max_str_digits; lia].
    apply (N.pow_lt_mono_r_iff 10); [lia|].
    eapply N.le_lt_trans; [exact Hlow|].
    eapply N.lt_trans; [exact Hn|]. by vm_compute. }
  rewrite bool_decide_eq_true_2 by done. simpl. f_equal; lia.
Qed.

End Ids.

(** ** Listing the allowed channels *)

Section Listing.

Implicit Types (st : Cog) (ctx : Ctx) (get_channel : Z → bool).

Lemma channel_mentions_None get_channel (ids : list string) :
  channel_mentions get_channel ids = None
  ↔ ∃ channel_id, channel_id ∈ ids ∧ PyInt.int channel_id = None.
Proof.
  induction ids as [|i ids IH]; simpl.
  - split; [done|]. by intros (? & ?%elem_of_nil & _).
  - destruct (PyInt.int i) as [n|] eqn:Hi.
    + rewrite fmap_None, IH. split.
      * intros (c & Hc & Hint). exists c. split; [by right|done].
      * intros (c & [->|Hc]%elem_of_cons & Hint); [congruence|]. by exists c.
    + split; [|done]. intros _. exists i. split; [by left|done].
Qed.

Lemma channel_mentions_Some get_channel (ids : list string) (mentions : list Z) :
  channel_mentions get_channel ids = Some mentions →
  ∀ n, n ∈ mentions
       ↔ ∃ channel_id, channel_id ∈ ids ∧ PyInt.int channel_id = Some n
                       ∧ get_channel n = true.
Proof.
  revert mentions. induction ids as [|i ids IH]; simpl; intros mentions Hm n.
  - injection Hm as <-. split; [by intros ?%elem_of_nil|].
    by intros (? & ?%elem_of_nil & _).
  - destruct (PyInt.int i) as [k|] eqn:Hi; [|done].
    destruct (channel_mentions get_channel ids) as [rest|] eqn:Hrest; [|done].
    simpl in Hm. injection Hm as <-. specialize (IH rest eq_refl n).
    destruct (get_channel k) eqn:Hk.
    + rewrite elem_of_cons, IH. split.
      * intros [->|(c & Hc & Hint & Hgc)].
        -- exists i. split_and!; [by left|done|done].
        -- exists c. split_and!; [by right|done|done].
      * intros (c & [->|Hc]%elem_of_cons & Hint & Hgc).
        -- left. congruence.
        -- right. by exists c.
    + rewrite IH. split.
      * intros (c & Hc & Hint & Hgc). exists c. split_and!; [by right|done|done].
      * intros (c & [->|Hc]%elem_of_cons & Hint & Hgc); [congruence|]. by exists c.
Qed.

Lemma get_allowed_channels_elem st g c :
  c ∈ get_allowed_channels st g ↔ is_channel_allowed st g c = true.
Proof.
  unfold get_allowed_channels.
  rewrite is_channel_allowed_lookup, list_elem_of_omap. split.
  - intros ([[g' c'] row] & Hin & Hf). simpl in Hf.
    case_decide as Hgc; [|done]. simplify_eq.
    apply elem_of_map_to_list in Hin. by eexists.
  - intros [row Hrow]. exists ((g, c), row). split.
    + by apply elem_of_map_to_list.
    + simpl. by rewrite decide_True.
Qed.

Lemma get_allowed_channels_nil st g :
  get_allowed_channels st g = [] ↔ ∀ c, is_channel_allowed st g c = false.
Proof.
  split.
  - intros Hnil c. apply not_true_is_false.
    rewrite <- get_allowed_channels_elem, Hnil. apply not_elem_of_nil.
  - intros Hnone. destruct (get_allowed_channels st g) as [|c l] eqn:Hl; [done|].
    assert (c ∈ get_allowed_channels st g) as Hc by (rewrite Hl; by left).
    apply get_allowed_channels_elem in Hc. by rewrite Hnone in Hc.
Qed.

End Listing.

(** X18. What [list_channels] answers in a guild when the query succeeds:
    that no channel was added exactly when none is allowed; a list that
    holds exactly the allowed channels whose id the guild still resolves;
    that no valid channel was found only when some are allowed and none
    resolves (stale rows are passed over, not deleted); an error exactly
    when an allowed channel id is not a number. *)
Theorem list_channels_answers (get_channel : Z → bool) (st : Cog) (ctx : Ctx) (g : N) :
  ctx_guild ctx = Some g →
  (list_channels false get_channel st ctx = NoChannelsAdded
   ↔ ∀ c, is_channel_allowed st (pretty g) c = false)
  ∧ (∀ mentions, list_channels false get_channel st ctx = ActiveIn mentions →
       mentions ≠ []
       ∧ ∀ n, n ∈ mentions
              ↔ ∃ c, is_channel_allowed st (pretty g) c = true
                     ∧ PyInt.int c = Some n ∧ get_channel n = true)
  ∧ (list_channels false get_channel st ctx = NoValidChannels →
     (∃ c, is_channel_allowed st (pretty g) c = true)
     ∧ ∀ c n, is_channel_allowed st (pretty g) c = true →
              PyInt.int c = Some n → get_channel n = false)
  ∧ (list_channels false get_channel st ctx = ListError
     ↔ ∃ c, is_channel_allowed st (pretty g) c = true ∧ PyInt.int c = None).
Proof.
  intros Hg. unfold list_channels. rewrite Hg.
  rewrite <- get_allowed_channels_nil.
  assert (∀ c, is_channel_allowed st (pretty g) c = true
               ↔ c ∈ get_allowed_channels st (pretty g)) as Hin.
  { intros c. symmetry. apply get_allowed_channels_elem. }
  destruct (get_allowed_channels st (pretty g)) as [|c0 ids] eqn:Hids.
  - split_and!; [done|done|done|].
    split; [done|]. intros (c & Hc%Hin & _). by apply elem_of_nil in Hc.
  - pose proof (channel_mentions_None get_channel (c0 :: ids)) as HNone.
    pose proof (channel_mentions_Some get_channel (c0 :: ids)) as HSome.
    destruct (channel_mentions get_channel (c0 :: ids)) as [[|n0 ms]|].
    + specialize (HSome [] eq_refl). split_and!; [done|done| |].
      * intros _. split; [exists c0; apply Hin; by left|].
        intros c n Hc%Hin Hint. apply not_true_is_false. intros Hgc.
        apply (not_elem_of_nil n), HSome. by exists c.
      * split; [done|]. intros (c & Hc%Hin & Hint).
        assert (Some [] = @None (list Z)) as Habs; [|done].
        apply HNone. by exists c.
    + specialize (HSome (n0 :: ms) eq_refl). split_and!; [done| |done|].
      * intros mentions [= <-]. split; [done|]. intros n. rewrite HSome.
        split; intros (c & Hc & Hrest); exists c; by rewrite ?Hin in *.
      * split; [done|]. intros (c & Hc%Hin & Hint).
        assert (Some (n0 :: ms) = @None (list Z)) as Habs; [|done].
        apply HNone. by exists c.
    + split_and!; [done|done|done|]. split; [|done]. intros _.
      destruct (proj1 HNone eq_refl) as (c & Hc & Hint).
      exists c. by rewrite Hin.
Qed.

Lemma list_channels_answers_witness :
  ctx_guild (mkCtx (Some 9%N) 55 7) = Some 9%N
  ∧ (∀ c, is_channel_allowed (init 1) (pretty 9%N) c = false)
  ∧ list_channels false (λ _, true) (init 1) (mkCtx (Some 9%N) 55 7) = NoChannelsAdded.
Proof.
  assert (∀ c, is_channel_allowed (init 1) (pretty 9%N) c = false) as Hnone by done.
  split_and!; [done|exact Hnone|].
  destruct (list_channels_answers (λ _, true) (init 1) (mkCtx (Some 9%N) 55 7) 9 eq_refl)
    as [Hno _].
  by apply Hno.
Defined.

(** X19. The id that add-channel stores as text is read back as the same
    number: after adding a channel the guild resolves, and provided the
    listing did not fail before on an id that is not a number, the
    listing names that channel. *)
Theorem list_channels_after_add (get_channel : Z → bool) (st : Cog) (ctx : Ctx)
    (channel : option N) (now : string) (g : N) :
  ctx_guild ctx = Some g →
  (default (ctx_channel ctx) channel < 2 ^ 64)%N →
  get_channel (Z.of_N (default (ctx_channel ctx) channel)) = true →
  list_channels false get_channel st ctx ≠ ListError →
  ∃ mentions,
    list_channels false get_channel (add_channel false now st ctx channel).1 ctx
    = ActiveIn mentions
    ∧ Z.of_N (default (ctx_channel ctx) channel) ∈ mentions.
Proof.
  intros Hg Hid Hgc Hok.
  set (c := default (ctx_channel ctx) channel) in *.
  set (st' := (add_channel false now st ctx channel).1).
  assert (∀ x, x ∈ get_allowed_channels st' (pretty g)
               ↔ x = pretty c ∨ x ∈ get_allowed_channels st (pretty g)) as Hin.
  { intros x. rewrite !get_allowed_channels_elem, !is_channel_allowed_lookup.
    unfold st'. rewrite (add_channel_state now st ctx channel g Hg). simpl.
    fold c. rewrite lookup_insert. case_decide as Hx.
    - injection Hx as <-. split; [by left|by eexists].
    - split; [by right|]. intros [->|]; [done|done]. }
  assert (∀ x, x ∈ get_allowed_channels st (pretty g) → PyInt.int x ≠ None)
    as Hparse.
  { intros x Hx Hint. apply Hok. unfold list_channels. rewrite Hg.
    destruct (get_allowed_channels st (pretty g)) as [|c0 ids] eqn:Hids;
      [by apply elem_of_nil in Hx|].
    assert (channel_mentions get_channel (c0 :: ids) = None) as ->; [|done].
    apply channel_mentions_None. by exists x. }
  assert (pretty c ∈ get_allowed_channels st' (pretty g)) as Hc
    by (apply Hin; by left).
  unfold list_channels. rewrite Hg.
  destruct (get_allowed_channels st' (pretty g)) as [|c0 ids] eqn:Hids;
    [by apply elem_of_nil in Hc|].
  pose proof (channel_mentions_None get_channel (c0 :: ids)) as HNone.
  pose proof (channel_mentions_Some get_channel (c0 :: ids)) as HSome.
  destruct (channel_mentions get_channel (c0 :: ids)) as [mentions|].
  - assert (Z.of_N c ∈ mentions) as Hmem.
    { apply (HSome mentions eq_refl). exists (pretty c).
      split_and!; [done|by apply int_pretty|done]. }
    destruct mentions as [|n0 ms]; [by apply elem_of_nil in Hmem|].
    by exists (n0 :: ms).
  - destruct (proj1 HNone eq_refl) as (x & Hx & Hint). exfalso.
    apply Hin in Hx as [->|Hx].
    + by rewrite int_pretty in Hint.
    + by apply (Hparse x).
Qed.

Lemma list_channels_after_add_witness :
  ctx_guild (mkCtx (Some 9%N) 55 7) = Some 9%N
  ∧ (default (ctx_channel (mkCtx (Some 9%N) 55 7)) None < 2 ^ 64)%N
  ∧ list_channels false (λ _, true) (init 1) (mkCtx (Some 9%N) 55 7) ≠ ListError
  ∧ ∃ mentions,
      list_channels false (λ _, true)
        (add_channel false "t" (init 1) (mkCtx (Some 9%N) 55 7) None).1
        (mkCtx (Some 9%N) 55 7)
      = ActiveIn mentions
      ∧ 55%Z ∈ mentions.
Proof.
  assert (default (ctx_channel (mkCtx (Some 9%N) 55 7)) None < 2 ^ 64)%N as Hid
    by (by vm_compute).
  assert (list_channels false (λ _, true) (init 1) (mkCtx (Some 9%N) 55 7) ≠ ListError)
    as Hok by done.
  split_and!; [done|exact Hid|exact Hok|].
  exact (list_channels_after_add (λ _, true) (init 1) (mkCtx (Some 9%N) 55 7) None
           "t" 9 eq_refl Hid eq_refl Hok).
Defined.

(** ** Usage statistics *)

Section Statistics.

Implicit Types (st : Cog) (ctx : Ctx) (g c : string) (rows : list UsageRow).

Lemma size_list_to_set_le (l : list string) :
  size (list_to_set l : gset string) ≤ length l.
Proof.
  induction l as [|x l IH].
  - by rewrite list_to_set_nil, size_empty.
  - rewrite list_to_set_cons, size_union_alt, size_singleton. cbn [length].
    assert (size ((list_to_set l : gset string) ∖ {[x]})
            ≤ size (list_to_set l : gset string)) as Hsub
      by (by apply subseteq_size, subseteq_difference_l).
    lia.
Qed.

Lemma channel_count_pos st g c :
  0 < channel_count st g c
  ↔ ∃ r, r ∈ guild_rows st g ∧ usage_channel_id r = c.
Proof.
  unfold channel_count. split.
  - intros Hpos.
    destruct (filter _ (guild_rows st g)) as [|r l] eqn:Hf; [simpl in Hpos; lia|].
    assert (r ∈ filter (λ r, usage_channel_id r = c) (guild_rows st g)) as Hr
      by (rewrite Hf; by left).
    apply list_elem_of_filter in Hr as [Hc Hr]. by exists r.
  - intros (r & Hr & Hc).
    assert (r ∈ filter (λ r, usage_channel_id r = c) (guild_rows st g)) as Hin
      by (by apply list_elem_of_filter).
    destruct (filter _ (guild_rows st g)); [by apply elem_of_nil in Hin|].
    simpl. lia.
Qed.

Lemma unique_le_total st g :
  unique_users st g ≤ total_messages st g.
Proof.
  unfold unique_users, total_messages.
  pose proof (size_list_to_set_le (usage_user_id <$> guild_rows st g)) as Hle.
  by rewrite length_fmap in Hle.
Qed.

Lemma total_messages_app st g rows :
  length (filter (λ r, usage_guild_id r = g) (usage_stats st ++ rows))
  = total_messages st g + length (filter (λ r, usage_guild_id r = g) rows).
Proof. unfold total_messages, guild_rows. by rewrite filter_app, length_app. Qed.

End Statistics.

(** X20. In the statistics of a guild the number of unique users never
    exceeds the number of interactions, and one is zero exactly when the
    other is. *)
Theorem unique_users_at_most_total (st : Cog) (guild_id : string) :
  unique_users st guild_id ≤ total_messages st guild_id
  ∧ (unique_users st guild_id = 0 ↔ total_messages st guild_id = 0).
Proof.
  pose proof (unique_le_total st guild_id) as Hle.
  split; [done|]. split; [|lia].
  unfold unique_users, total_messages. intros Hzero%size_empty_inv.
  destruct (guild_rows st guild_id) as [|r rows]; [done|]. exfalso.
  apply (not_elem_of_empty (C:=gset string) (usage_user_id r)).
  rewrite <- Hzero. apply elem_of_list_to_set. by left.
Qed.

(** X21. Handling a message adds to the interaction count of the guild it
    was sent in the rows it wrote (one, or none when nothing was sent or
    the insert raised), and to no other guild's: a direct message is
    counted for no guild. *)
Theorem total_messages_accounting (e : Env) (st : Cog) (m : Message) (g : N)
    (rows : list UsageRow) :
  usage_stats (on_message e st m).1 = usage_stats st ++ rows →
  length rows ≤ 1
  ∧ total_messages (on_message e st m).1 (pretty g)
    = total_messages st (pretty g)
      + (if decide (msg_guild m = Some g) then length rows else 0).
Proof.
  intros Hrows. unfold total_messages at 1, guild_rows.
  rewrite Hrows, total_messages_app.
  destruct (on_message_cases e st m) as [[Hst _]|Heq].
  - rewrite Hst in Hrows.
    assert (rows = []) as ->
      by (apply (inj (app (usage_stats st))); by rewrite app_nil_r).
    split; [simpl; lia|]. by case_decide.
  - rewrite Heq, process_message_usage in Hrows.
    apply (inj (app (usage_stats st))) in Hrows as <-.
    destruct (_ || _); [split; [simpl; lia|by case_decide]|].
    split; [simpl; lia|]. f_equal.
    rewrite filter_cons. simpl.
    destruct (msg_guild m) as [g0|].
    + destruct (decide (g0 = g)) as [->|Hne].
      * by rewrite !decide_True.
      * rewrite !decide_False; [done| |].
        -- intros [= Hg0]. by apply Hne.
        -- intros Hg0%pretty_N_inj. by apply Hne.
    + rewrite !decide_False; [done|done|].
      intros Hdm. by apply (pretty_ne_DM g).
Qed.

Lemma total_messages_accounting_witness :
  usage_stats (on_message env_ok (init 1) hi_dm).1
  = usage_stats (init 1) ++ [mkUsage "7" "DM" "55" "2024-01-01T00:00:00" 2 4]
  ∧ total_messages (on_message env_ok (init 1) hi_dm).1 (pretty 9%N) = 0.
Proof.
  assert (usage_stats (on_message env_ok (init 1) hi_dm).1
          = usage_stats (init 1) ++ [mkUsage "7" "DM" "55" "2024-01-01T00:00:00" 2 4])
    as Hrows by done.
  split; [exact Hrows|].
  exact (proj2 (total_messages_accounting env_ok (init 1) hi_dm 9 _ Hrows)).
Defined.

(** X23. For a guild without interactions, whatever admissible answer the
    most-active query gives, the statistics shown are zero interactions,
    zero users and no most-active channel. *)
Theorem show_stats_empty_guild (get_channel : Z → bool) (top : option string)
    (st : Cog) (ctx : Ctx) (g : N) :
  ctx_guild ctx = Some g →
  top_channel_ok st (pretty g) top →
  total_messages st (pretty g) = 0 →
  show_stats false get_channel top st ctx = StatsMessage 0 0 None.
Proof.
  intros Hg Htop Hzero. unfold show_stats. rewrite Hg, Hzero.
  assert (unique_users st (pretty g) = 0) as ->.
  { pose proof (unique_le_total st (pretty g)). lia. }
  destruct top as [c|]; [|done].
  destruct Htop as [Hpos _]. apply channel_count_pos in Hpos as (r & Hr & _).
  unfold total_messages in Hzero.
  destruct (guild_rows st (pretty g)); [by apply elem_of_nil in Hr|done].
Qed.

Lemma show_stats_empty_guild_witness :
  ctx_guild (mkCtx (Some 9%N) 55 7) = Some 9%N
  ∧ top_channel_ok (on_message env_ok (init 1) hi_dm).1 (pretty 9%N) None
  ∧ total_messages (on_message env_ok (init 1) hi_dm).1 (pretty 9%N) = 0
  ∧ show_stats false (λ _, true) None (on_message env_ok (init 1) hi_dm).1
      (mkCtx (Some 9%N) 55 7)
    = StatsMessage 0 0 None.
Proof.
  assert (top_channel_ok (on_message env_ok (init 1) hi_dm).1 (pretty 9%N) None)
    as Htop by done.
  split_and!; [done|exact Htop|done|].
  exact (show_stats_empty_guild (λ _, true) None (on_message env_ok (init 1) hi_dm).1
           (mkCtx (Some 9%N) 55 7) 9 eq_refl Htop eq_refl).
Defined.

(** ** Stripped text *)

Section Stripped.

Lemma rev_app_append (p q acc : string) :
  String.rev_app (p +:+ q) acc = String.rev_app q (String.rev_app p acc).
Proof.
  revert acc. induction p as [|c p IH]; intros acc; [done|].
  change (String.rev_app (p +:+ q) (String c acc)
          = String.rev_app q (String.rev_app p (String c acc))).
  apply IH.
Qed.

Lemma rev_app_acc (q acc : string) :
  String.rev_app q acc = String.rev q +:+ acc.
Proof.
  rewrite <- (rev_involutive q) at 1. unfold String.rev at 1.
  by rewrite rev_app_rev_app.
Qed.

Lemma lstrip_suffix (s : string) : ∃ p, s = p +:+ Py.lstrip s.
Proof.
  induction s as [|c s [p Hp]]; simpl; [by exists ""|].
  destruct (Py.isspace c).
  - exists (String c p). change (String c s = String c (p +:+ Py.lstrip s)).
    by rewrite <- Hp.
  - by exists "".
Qed.

End Stripped.

(** X24. Cleaned text neither begins nor ends with a white-space character. *)
Theorem clean_content_trimmed (bot : N) (raw rest : string) (c : Ascii.ascii) :
  (clean_content bot raw = String c rest → Py.isspace c = false)
  ∧ (String.rev (clean_content bot raw) = String c rest → Py.isspace c = false).
Proof.
  unfold clean_content, Py.strip, Py.rstrip.
  set (t := Py.lstrip (Py.replace (mention_token bot) "" raw)).
  split.
  - intros Hhead.
    destruct (lstrip_suffix (String.rev t)) as [p Hp].
    assert (t = String c (rest +:+ String.rev_app p "")) as Ht.
    { rewrite <- (rev_involutive t). unfold String.rev at 1.
      rewrite Hp, rev_app_append, rev_app_acc.
      fold (String.rev (Py.lstrip (String.rev t))). by rewrite Hhead. }
    by apply (lstrip_head _ _ _ Ht).
  - rewrite rev_involutive. apply lstrip_head.
Qed.

Lemma clean_content_trimmed_witness :
  clean_content 1 " <@1> hi " = "hi"
  ∧ Py.isspace (Ascii.ascii_of_N 104) = false.
Proof.
  split; [done|].
  destruct (clean_content_trimmed 1 " <@1> hi " "i" (Ascii.ascii_of_N 104)) as [Hhead _].
  by apply Hhead.
Defined.
